(** * Hypertension assistant: the Gemini fetcher and the chat transcript

    A shallow embedding of [main.py]: the values that [response.json()]
    hands to the code, Python's dynamic operations on them (with the
    exceptions they raise), the retry loop of [get_gemini_response] over an
    explicit world (upstream replies, requests sent, sleeps and
    diagnostics), and [process_query] / [app] over the session transcript. *)
From Stdlib Require Import String Ascii List ZArith Lia Bool DecimalString.
From Stdlib Require DecimalPos DecimalZ Finite.

Import ListNotations.

Open Scope string_scope.

Set Warnings "-register-all".

(* ===================================================================== *)
(** ** Python values and exceptions *)
(* ===================================================================== *)

Module Py.

(** What [json.loads] produces.  Numbers are the integer ones; an object is
    the list of its items in insertion order, looked up by first match. *)
Inductive json : Type :=
| JNull
| JBool (b : bool)
| JNum (n : Z)
| JStr (s : string)
| JArr (l : list json)
| JObj (o : list (string * json)).

(** The exception classes that occur in [get_gemini_response].
    [RequestException] stands for the whole [requests.exceptions] family
    (connection errors, timeouts, [HTTPError]). *)
Inductive exn : Type :=
| RequestException
| JSONDecodeError
| AttributeError
| IndexError
| KeyError
| TypeError.

Inductive outcome (A : Type) : Type :=
| Val (a : A)
| Exc (e : exn).

Arguments Val {A} a.

Arguments Exc {A} e.

Definition obind {A B} (m : outcome A) (k : A -> outcome B) : outcome B :=
  match m with
  | Val a => k a
  | Exc e => Exc e
  end.

Declare Scope py_scope.

Delimit Scope py_scope with py.

Notation "x <~ m ; k" := (obind m (fun x => k))
  (at level 61, m at next level, right associativity) : py_scope.

Open Scope py_scope.

(** [bool(v)] *)
Definition truthy (v : json) : bool :=
  match v with
  | JNull => false
  | JBool b => b
  | JNum n => negb (n =? 0)%Z
  | JStr s => negb (s =? "")
  | JArr l => match l with [] => false | _ => true end
  | JObj o => match o with [] => false | _ => true end
  end.

Fixpoint lookup (k : string) (o : list (string * json)) : option json :=
  match o with
  | [] => None
  | (k', v) :: rest => if k =? k' then Some v else lookup k rest
  end.

(** [v.get(k, default)]: a method of dicts only. *)
Definition py_get (v : json) (k : string) (default : json) : outcome json :=
  match v with
  | JObj o => match lookup k o with
              | Some x => Val x
              | None => Val default
              end
  | _ => Exc AttributeError
  end.

(** [v[k]] with a string key. *)
Definition py_getitem (v : json) (k : string) : outcome json :=
  match v with
  | JObj o => match lookup k o with
              | Some x => Val x
              | None => Exc KeyError
              end
  | _ => Exc TypeError
  end.

(** A byte that continues a UTF-8 sequence (10xxxxxx). *)
Definition utf8_cont (c : ascii) : bool :=
  let n := nat_of_ascii c in (128 <=? n)%nat && (n <? 192)%nat.

(** Text is held as UTF-8 bytes; a character of a Python [str] is a lead
    byte with the continuation bytes after it. *)
Fixpoint utf8_take_cont (s : string) : string :=
  match s with
  | String c rest => if utf8_cont c then String c (utf8_take_cont rest) else ""
  | EmptyString => ""
  end.

Fixpoint utf8_chars (s : string) : list string :=
  match s with
  | EmptyString => []
  | String c rest =>
      if utf8_cont c then utf8_chars rest
      else String c (utf8_take_cont rest) :: utf8_chars rest
  end.

(** [v[0]] *)
Definition py_index0 (v : json) : outcome json :=
  match v with
  | JArr [] => Exc IndexError
  | JArr (x :: _) => Val x
  | JStr EmptyString => Exc IndexError
  | JStr (String c rest) => Val (JStr (String c (utf8_take_cont rest)))
  | JObj _ => Exc KeyError
  | _ => Exc TypeError
  end.

(** The items a [for] loop over [v] visits. *)
Definition py_iter (v : json) : outcome (list json) :=
  match v with
  | JArr l => Val l
  | JStr s => Val (map JStr (utf8_chars s))
  | JObj o => Val (map (fun kv => JStr (fst kv)) o)
  | _ => Exc TypeError
  end.

(** Lists and dicts cannot be members of a [set]. *)
Definition hashable (v : json) : bool :=
  match v with
  | JArr _ | JObj _ => false
  | _ => true
  end.

(** [==] on hashable values: [True == 1] and [False == 0]. *)
Definition py_eqb (a b : json) : bool :=
  match a, b with
  | JNull, JNull => true
  | JStr s, JStr t => s =? t
  | JNum n, JNum m => (n =? m)%Z
  | JBool x, JBool y => Bool.eqb x y
  | JBool x, JNum m => ((if x then 1 else 0) =? m)%Z
  | JNum n, JBool y => (n =? (if y then 1 else 0))%Z
  | _, _ => false
  end.

(** [v in s] for a set [s], kept as the list of its members. *)
Definition py_in (v : json) (s : list json) : outcome bool :=
  if hashable v then Val (existsb (py_eqb v) s) else Exc TypeError.

(** [a + b] where [b] is a [str]. *)
Definition py_add_str (a : json) (b : string) : outcome string :=
  match a with
  | JStr s => Val (s ++ b)
  | _ => Exc TypeError
  end.

(** *** [str()] and [repr()], as an f-string uses them *)
Definition nl : string := String "010"%char "".

Definition hex_digit (n : nat) : ascii :=
  match n with
  | 0 => "0" | 1 => "1" | 2 => "2" | 3 => "3" | 4 => "4" | 5 => "5"
  | 6 => "6" | 7 => "7" | 8 => "8" | 9 => "9" | 10 => "a" | 11 => "b"
  | 12 => "c" | 13 => "d" | 14 => "e" | _ => "f"
  end%char.

Fixpoint contains_char (c : ascii) (s : string) : bool :=
  match s with
  | EmptyString => false
  | String d rest => Ascii.eqb c d || contains_char c rest
  end.

(** The quote [repr] picks: double quotes only when the text has a single
    quote and no double quote. *)
Definition repr_quote (s : string) : ascii :=
  if contains_char "'"%char s && negb (contains_char "034"%char s)
  then "034"%char else "'"%char.

(** One character of a [repr]: backslash and the quote in use are escaped,
    tab, newline and carriage return get their letter, other control
    characters become [\xhh].  Bytes from 128 on are left as they are,
    which is [repr] on the printable characters outside ASCII. *)
Definition repr_char (q c : ascii) : string :=
  let n := nat_of_ascii c in
  if Ascii.eqb c "\"%char || Ascii.eqb c q then String "\"%char (String c "")
  else if (n =? 9)%nat then "\t"
  else if (n =? 10)%nat then "\n"
  else if (n =? 13)%nat then "\r"
  else if (n <? 32)%nat || (n =? 127)%nat
       then String "\"%char (String "x"%char
              (String (hex_digit (n / 16)) (String (hex_digit (n mod 16)) "")))
  else String c "".

Fixpoint repr_chars (q : ascii) (s : string) : string :=
  match s with
  | EmptyString => ""
  | String c rest => repr_char q c ++ repr_chars q rest
  end.

Definition repr_str (s : string) : string :=
  let q := repr_quote s in
  String q (repr_chars q s ++ String q "").

Fixpoint join (sep : string) (l : list string) : string :=
  match l with
  | [] => ""
  | [x] => x
  | x :: rest => x ++ sep ++ join sep rest
  end.

Fixpoint py_repr (v : json) : string :=
  match v with
  | JNull => "None"
  | JBool true => "True"
  | JBool false => "False"
  | JNum n => NilZero.string_of_int (Z.to_int n)
  | JStr s => repr_str s
  | JArr l => "[" ++ join ", " (map py_repr l) ++ "]"
  | JObj o =>
      "{" ++ join ", "
               (map (fun kv => match kv with
                               | (k, x) => repr_str k ++ ": " ++ py_repr x
                               end) o) ++ "}"
  end.

(** [str(v)], what [f"{v}"] inserts. *)
Definition py_str (v : json) : string :=
  match v with
  | JStr s => s
  | _ => py_repr v
  end.

End Py.

Import Py.

(* ===================================================================== *)
(** ** Configuration and constants *)
(* ===================================================================== *)

Definition MODEL_NAME : string := "gemini-2.5-flash-preview-09-2025".

(** The module starts from [API_KEY = ""] and falls back on
    [st.secrets.get("GEMINI_API_KEY", "")]; [secrets] is the content of
    the secrets file, which is taken to exist. *)
Definition load_API_KEY (secrets : list (string * string)) : string :=
  let API_KEY := "" in
  if negb (API_KEY =? "") then API_KEY
  else match find (fun kv => fst kv =? "GEMINI_API_KEY") secrets with
       | Some kv => snd kv
       | None => ""
       end.

Module meta.

Definition initial_greeting : string :=
  "👋 Hi! I'm your **Hypertension Assistant**. I use advanced AI to answer your questions about high blood pressure. Ask away!".

Definition greeting : string :=
  "Hello there! How can I help you manage your hypertension today?".

Definition api_fail : string :=
  "⚠️ I'm sorry, I cannot connect to the AI service right now. Please try again later. This application requires a successful connection to the Gemini API.".

Definition placeholder_fail : string :=
  "I'm sorry, the AI could not generate a clear answer to that query. Please rephrase your question or try a suggestion below.".

End meta.

Definition suggestions : list string :=
  [ "What is the optimal diet for reducing blood pressure?";
    "What are the long-term effects of untreated hypertension?";
    "Can stress significantly raise my blood pressure reading?";
    "Explain the difference between systolic and diastolic pressure." ].

(* ===================================================================== *)
(** ** The world outside the program *)
(* ===================================================================== *)

(** What one [requests.post] meets: no response at all (connection error
    or the 20 s timeout), or a response with its status and its body,
    [None] when the body is not JSON.  A body on which [response.json()]
    fails in another way (the [ValueError] for an integer of more than
    4300 digits, a [RecursionError]) is not among the replies. *)
Inductive reply : Type :=
| ConnectionFailed
| Http (status : Z) (body : option json).

(** What the program does to the outside, in order. *)
Inductive event : Type :=
| Post (url : string) (data : json)
| Sleep (seconds : Z)
| StError (msg : string).

(** [upstream n] answers the request sent after [n] earlier ones. *)
Record world : Type := mkWorld {
  upstream : nat -> reply;
  sent : nat;
  events : list event
}.

Definition emit (e : event) (w : world) : world :=
  mkWorld (upstream w) (sent w) (events w ++ [e]).

(** State and exceptions. *)
Definition M (A : Type) : Type := world -> outcome A * world.

Definition ret {A} (a : A) : M A := fun w => (Val a, w).

Definition bind {A B} (m : M A) (k : A -> M B) : M B :=
  fun w => match m w with
           | (Val a, w') => k a w'
           | (Exc e, w') => (Exc e, w')
           end.

Definition lift {A} (o : outcome A) : M A := fun w => (o, w).

Declare Scope m_scope.

Delimit Scope m_scope with m.

Notation "x <- m ;; k" := (bind m (fun x => k))
  (at level 61, m at next level, right associativity) : m_scope.

Notation "m ;; k" := (bind m (fun _ => k))
  (at level 61, right associativity) : m_scope.

Open Scope m_scope.

(** [try: body except (RequestException, JSONDecodeError): handler] *)
Definition caught (e : exn) : bool :=
  match e with
  | RequestException | JSONDecodeError => true
  | _ => false
  end.

Definition try_except {A} (body handler : M A) : M A :=
  fun w => match body w with
           | (Exc e, w') => if caught e then handler w' else (Exc e, w')
           | r => r
           end.

Definition response : Type := (Z * option json)%type.

Definition requests_post (url : string) (data : json) : M response :=
  fun w =>
    let w' := mkWorld (upstream w) (S (sent w)) (events w ++ [Post url data]) in
    match upstream w (sent w) with
    | ConnectionFailed => (Exc RequestException, w')
    | Http status body => (Val (status, body), w')
    end.

(** [HTTPError] for 4xx and 5xx. *)
Definition raise_for_status (r : response) : M unit :=
  if ((400 <=? fst r) && (fst r <? 600))%Z then lift (Exc RequestException)
  else ret tt.

Definition response_json (r : response) : M json :=
  match snd r with
  | Some v => ret v
  | None => lift (Exc JSONDecodeError)
  end.

Definition time_sleep (seconds : Z) : M unit := fun w => (Val tt, emit (Sleep seconds) w).

Definition st_error (msg : string) : M unit := fun w => (Val tt, emit (StError msg) w).

(* ===================================================================== *)
(** ** [get_gemini_response] *)
(* ===================================================================== *)

Definition api_url (API_KEY : string) : string :=
  "https://generativelanguage.googleapis.com/v1beta/models/" ++ MODEL_NAME
  ++ ":generateContent?key=" ++ API_KEY.

Definition system_prompt : string :=
  "You are a helpful, professional, and medically aware assistant specializing in hypertension "
  ++ "and blood pressure management. Provide a concise, easy-to-understand answer based on the information "
  ++ "you find. When discussing medical topics, explicitly advise the user to consult a doctor for diagnosis or treatment.".

Definition payload (query : string) : json :=
  JObj [ ("contents", JArr [JObj [("parts", JArr [JObj [("text", JStr query)]])]]);
         ("tools", JArr [JObj [("google_search", JObj [])]]);
         ("systemInstruction", JObj [("parts", JArr [JObj [("text", JStr system_prompt)]])]) ].

Definition max_retries : nat := 3.

Definition sources_header : string := nl ++ nl ++ "---" ++ nl ++ "**Sources:**" ++ nl.

(** [source.get('web', {}).get('uri')] and
    [source.get('web', {}).get('title', 'Link')], in that order. *)
Definition source_fields (source : json) : outcome (json * json) :=
  web <~ py_get source "web" (JObj []);
  uri <~ py_get web "uri" JNull;
  web' <~ py_get source "web" (JObj []);
  title <~ py_get web' "title" (JStr "Link");
  Val (uri, title).

Definition citation_line (title uri : json) : string :=
  "- [" ++ py_str title ++ "](" ++ py_str uri ++ ")" ++ nl.

(** The [for source in sources] loop, with its [break]; [unique_uris] is
    the set, one list entry per member. *)
Fixpoint citations_loop (sources : list json) (citations : string)
         (unique_uris : list json) : outcome string :=
  match sources with
  | [] => Val citations
  | source :: rest =>
      f <~ source_fields source;
      let (uri, title) := f in
      if truthy uri then
        seen <~ py_in uri unique_uris;
        if negb seen then
          let citations := citations ++ citation_line title uri in
          let unique_uris := uri :: unique_uris in
          if (3 <=? List.length unique_uris)%nat then Val citations
          else citations_loop rest citations unique_uris
        else citations_loop rest citations unique_uris
      else citations_loop rest citations unique_uris
  end.

(** [candidate and candidate.get('content') and candidate['content']['parts']] *)
Definition candidate_has_parts (candidate : json) : outcome bool :=
  if negb (truthy candidate) then Val false
  else
    content <~ py_get candidate "content" JNull;
    if negb (truthy content) then Val false
    else
      content' <~ py_getitem candidate "content";
      parts <~ py_getitem content' "parts";
      Val (truthy parts).

(** The two lines that pick [sources]. *)
Definition grounding_sources (candidate : json) : outcome json :=
  grounding_metadata <~ py_get candidate "groundingMetadata" JNull;
  if negb (truthy grounding_metadata) then Val (JArr [])
  else
    attributions <~ py_get grounding_metadata "groundingAttributions" JNull;
    if negb (truthy attributions) then Val (JArr [])
    else py_getitem grounding_metadata "groundingAttributions".

(** From [sources = []] to the end of the [for] loop: the value of
    [citations] at the [return]. *)
Definition citations_of (candidate : json) : outcome string :=
  sources <~ grounding_sources candidate;
  if truthy sources then
    items <~ py_iter sources;
    citations_loop items sources_header []
  else Val "".

(** From [result = response.json()] to the end of the [if]: [Some answer]
    when the body of the [if] returns, [None] when the [if] is not taken
    and control reaches the end of the [try] block. *)
Definition read_result (result : json) : outcome (option string) :=
  candidates <~ py_get result "candidates" (JArr [JObj []]);
  candidate <~ py_index0 candidates;
  taken <~ candidate_has_parts candidate;
  if taken then
    content <~ py_getitem candidate "content";
    parts <~ py_getitem content "parts";
    part <~ py_index0 parts;
    text <~ py_get part "text" (JStr meta.placeholder_fail);
    citations <~ citations_of candidate;
    answer <~ py_add_str text citations;
    Val (Some answer)
  else Val None.

Definition try_block (API_KEY query : string) : M (option string) :=
  response <- requests_post (api_url API_KEY) (payload query) ;;
  raise_for_status response ;;
  result <- response_json response ;;
  lift (read_result result).

Definition except_block (attempt : nat) : M (option string) :=
  if (attempt <? max_retries - 1)%nat then
    let wait_time := (2 ^ Z.of_nat attempt)%Z in
    time_sleep wait_time ;; ret None
  else
    st_error ("Failed to connect to Gemini API after "
              ++ py_str (JNum (Z.of_nat max_retries)) ++ " attempts.") ;;
    ret (Some meta.api_fail).

(** [for attempt in range(max_retries)], then the [return] after it. *)
Fixpoint attempts (API_KEY query : string) (range : list nat) : M string :=
  match range with
  | [] => ret meta.placeholder_fail
  | attempt :: rest =>
      r <- try_except (try_block API_KEY query) (except_block attempt) ;;
      match r with
      | Some answer => ret answer
      | None => attempts API_KEY query rest
      end
  end.

Definition get_gemini_response (API_KEY query : string) : M string :=
  if negb (truthy (JStr API_KEY)) then
    st_error "API Key is missing. Please ensure it is set up correctly in your environment (Canvas or local secrets)." ;;
    ret meta.api_fail
  else attempts API_KEY query (seq 0 max_retries).

(* ===================================================================== *)
(** ** The chat session: [app] and [process_query] *)
(* ===================================================================== *)

(** A transcript entry, [{"role": ..., "text": ...}]; the assistant's role
    is spelled ["bot"]. *)
Record message : Type := mkMessage { role : string; text : string }.

(** [st.session_state]: [messages] is absent until [app] sets it. *)
Record session_state : Type := mkSession { messages : option (list message) }.

(** [st.session_state.messages.append(m)] *)
Definition messages_append (m : message) (ss : session_state) : outcome session_state :=
  match messages ss with
  | Some ms => Val (mkSession (Some (ms ++ [m])%list))
  | None => Exc AttributeError
  end.

(** The session is updated in place, so what was appended before an
    exception stays appended. *)
Definition process_query (API_KEY user_query : string)
           (ss : session_state) (w : world) : outcome unit * session_state * world :=
  if negb (truthy (JStr user_query)) then (Val tt, ss, w)
  else
    match messages_append (mkMessage "user" user_query) ss with
    | Exc e => (Exc e, ss, w)
    | Val ss1 =>
        match get_gemini_response API_KEY user_query w with
        | (Exc e, w') => (Exc e, ss1, w')
        | (Val response, w') =>
            match messages_append (mkMessage "bot" response) ss1 with
            | Exc e => (Exc e, ss1, w')
            | Val ss2 => (Val tt, ss2, w')
            end
        end
    end.

(** What the user did before this run of the script. *)
Inductive ui_event : Type :=
| Idle
| Submitted (user_input_text : string)
| SuggestionClicked (i : nat).

(** [if "messages" not in st.session_state: ...] *)
Definition init_messages (ss : session_state) : session_state :=
  match messages ss with
  | None => mkSession (Some [mkMessage "bot" meta.initial_greeting])
  | Some _ => ss
  end.

(** One run of [app]; drawing the page is left out. *)
Definition app (API_KEY : string) (ev : ui_event)
           (ss : session_state) (w : world) : outcome unit * session_state * world :=
  let ss := init_messages ss in
  match ev with
  | Idle => (Val tt, ss, w)
  | Submitted user_input_text => process_query API_KEY user_input_text ss w
  | SuggestionClicked i =>
      match nth_error suggestions i with
      | Some sug => process_query API_KEY sug ss w
      | None => (Val tt, ss, w)
      end
  end.

(** The script is run again after every event, on the same session. *)
Fixpoint app_runs (API_KEY : string) (evs : list ui_event)
         (ss : session_state) (w : world) : session_state * world :=
  match evs with
  | [] => (ss, w)
  | ev :: rest =>
      match app API_KEY ev ss w with
      | (_, ss', w') => app_runs API_KEY rest ss' w'
      end
  end.

Definition fresh_session : session_state := mkSession None.

(* ===================================================================== *)
(** ** Vocabulary of the statements *)
(* ===================================================================== *)

(** The request every attempt sends, and the world after sending it. *)
Definition request (API_KEY query : string) : event :=
  Post (api_url API_KEY) (payload query).

Definition posted (API_KEY query : string) (w : world) : world :=
  mkWorld (upstream w) (S (sent w)) (events w ++ [request API_KEY query]).

Definition status_error (status : Z) : bool :=
  ((400 <=? status) && (status <? 600))%Z.

(** No response, or a response with a 4xx or 5xx status. *)
Definition transport_failure (r : reply) : bool :=
  match r with
  | ConnectionFailed => true
  | Http status _ => status_error status
  end.

(** A response with an acceptable status whose body is not JSON. *)
Definition unparseable (r : reply) : bool :=
  match r with
  | ConnectionFailed => false
  | Http status None => negb (status_error status)
  | Http _ (Some _) => false
  end.

(** An outcome that the [except] clause lets through. *)
Definition uncaught {A : Type} (o : outcome A) : Prop :=
  match o with
  | Val _ => True
  | Exc e => caught e = false
  end.

(** A world whose upstream gives the same reply to every request. *)
Definition steady (r : reply) : world := mkWorld (fun _ => r) 0 [].

Definition sleeps (evs : list event) : list Z :=
  flat_map (fun e => match e with Sleep s => [s] | _ => [] end) evs.

Definition posts (evs : list event) : nat :=
  List.length (filter (fun e => match e with Post _ _ => true | _ => false end) evs).

Definition errors (evs : list event) : list string :=
  flat_map (fun e => match e with StError m => [m] | _ => [] end) evs.

Definition connect_error_message : string :=
  "Failed to connect to Gemini API after 3 attempts.".

(** The world after three failed attempts. *)
Definition after_three_failures (API_KEY query : string) (w : world) : world :=
  mkWorld (upstream w) (3 + sent w)
    (events w ++ [ request API_KEY query; Sleep 1;
                   request API_KEY query; Sleep 2;
                   request API_KEY query; StError connect_error_message ]).

(** What C2 asks of a response body: the run against an upstream that
    always answers 200 with this body ends like the run against an upstream
    that never answers, with the same result and the same waits. *)
Definition retried_like_transport_error (API_KEY query : string)
           (body : option json) : Prop :=
  let run := get_gemini_response API_KEY query (steady (Http 200 body)) in
  let ref := get_gemini_response API_KEY query (steady ConnectionFailed) in
  fst run = fst ref
  /\ sleeps (events (snd run)) = sleeps (events (snd ref)).

(** An upstream that answers 200 with a page that is not JSON, except
    for the second request, which gets no answer. *)
Definition html_then_timeout_then_html (n : nat) : reply :=
  match n with
  | 1 => ConnectionFailed
  | _ => Http 200 None
  end.

(** A body of the right syntax and the wrong shape: the prompt was blocked
    and there is no [candidates] key. *)
Definition blocked_prompt_body : json :=
  JObj [("promptFeedback", JObj [("blockReason", JStr "SAFETY")])].

(* ===================================================================== *)
(** ** Notions of the specification: blank queries, citation lists *)
(* ===================================================================== *)

(** [str.isspace] on ASCII, and "empty after trimming". *)
Definition py_isspace (c : ascii) : bool :=
  let n := nat_of_ascii c in
  ((n =? 32) || ((9 <=? n) && (n <=? 13)) || ((28 <=? n) && (n <=? 31)))%nat.

Fixpoint blank (s : string) : bool :=
  match s with
  | EmptyString => true
  | String c rest => py_isspace c && blank rest
  end.

Definition greeting_message : message := mkMessage "bot" meta.initial_greeting.

(** A grounded answer as the service sends it. *)
Definition answer_body (answer : json) (attributions : json) : json :=
  JObj [("candidates",
         JArr [JObj [("content", JObj [("parts", JArr [JObj [("text", answer)]]);
                                       ("role", JStr "model")]);
                     ("groundingMetadata",
                      JObj [("groundingAttributions", attributions)])]])].

(** The citation list in the words of the specification.  An attribution
    is read as its pair (uri, title); the list keeps the pairs that have a
    URI, drops a pair whose URI came earlier, and stops at three. *)
Definition has_uri (f : json * json) : bool := truthy (fst f).

Fixpoint first_occurrences (seen : list json) (fields : list (json * json))
  : list (json * json) :=
  match fields with
  | [] => []
  | f :: rest =>
      if existsb (py_eqb (fst f)) seen then first_occurrences seen rest
      else f :: first_occurrences (fst f :: seen) rest
  end.

Definition citation_list (fields : list (json * json)) : list (json * json) :=
  firstn 3 (first_occurrences [] (filter has_uri fields)).

Fixpoint render (citations : list (json * json)) : string :=
  match citations with
  | [] => ""
  | c :: rest => citation_line (snd c) (fst c) ++ render rest
  end.

(** [l1] is [l2] with some entries left out and the order kept. *)
Inductive subsequence {A : Type} : list A -> list A -> Prop :=
| subsequence_nil : forall l, subsequence [] l
| subsequence_keep : forall x l1 l2,
    subsequence l1 l2 -> subsequence (x :: l1) (x :: l2)
| subsequence_skip : forall x l1 l2,
    subsequence l1 l2 -> subsequence l1 (x :: l2).

(** No entry has the URI of an entry before it. *)
Fixpoint distinct_uris (citations : list (json * json)) : Prop :=
  match citations with
  | [] => True
  | c :: rest =>
      Forall (fun d => py_eqb (fst d) (fst c) = false) rest /\ distinct_uris rest
  end.

(** An attribution with no title of its own: [web] is absent, or is an
    object without a [title] key. *)
Definition lacks_title (source : json) : Prop :=
  match source with
  | JObj o => match lookup "web" o with
              | None => True
              | Some (JObj web) => lookup "title" web = None
              | Some _ => False
              end
  | _ => False
  end.

(** An attribution of the documented form: an object whose [web], when
    there, is an object, with a scalar for [uri] when there is one. *)
Definition attribution_ok (source : json) : Prop :=
  exists o, source = JObj o
    /\ match lookup "web" o with
       | None => True
       | Some (JObj web) => match lookup "uri" web with
                            | Some uri => hashable uri = true
                            | None => True
                            end
       | Some _ => False
       end.

(** Each attribution can be read, and a URI that is there is a scalar. *)
Definition readable (sources : list json) (fields : list (json * json)) : Prop :=
  Forall2 (fun source f => source_fields source = Val f) sources fields
  /\ Forall (fun f => truthy (fst f) = true -> hashable (fst f) = true) fields.

Definition web_source (fields : list (string * json)) : json :=
  JObj [("web", JObj fields)].

Definition sample_sources : list json :=
  [ web_source [("uri", JStr "https://a.example"); ("title", JStr "A")];
    web_source [("title", JStr "no address")];
    web_source [("uri", JStr "https://a.example"); ("title", JStr "A again")];
    web_source [("uri", JStr "https://b.example")];
    JObj [];
    web_source [("uri", JStr "https://c.example"); ("title", JStr "C")];
    web_source [("uri", JStr "https://d.example"); ("title", JStr "D")] ].

Definition sample_fields : list (json * json) :=
  [ (JStr "https://a.example", JStr "A");
    (JNull, JStr "no address");
    (JStr "https://a.example", JStr "A again");
    (JStr "https://b.example", JStr "Link");
    (JNull, JStr "Link");
    (JStr "https://c.example", JStr "C");
    (JStr "https://d.example", JStr "D") ].

(* ===================================================================== *)
(** ** Notions of the specification: response shapes *)
(* ===================================================================== *)

(** A first candidate that has no content with parts, as far as the test
    of the [if] can tell without raising: the candidate is falsy, or it is
    an object whose [content] is absent or falsy, or whose [content] is an
    object with a falsy [parts]. *)
Definition lacks_content_with_parts (candidate : json) : Prop :=
  truthy candidate = false
  \/ exists c, candidate = JObj c
       /\ match lookup "content" c with
          | None => True
          | Some content =>
              truthy content = false
              \/ exists ct parts, content = JObj ct
                   /\ lookup "parts" ct = Some parts /\ truthy parts = false
          end.

(** A parsed body in which the [if] is not taken: no [candidates] key, or
    a first candidate as above. *)
Definition without_candidate_content (body : json) : Prop :=
  exists o, body = JObj o
    /\ (lookup "candidates" o = None
        \/ exists candidate others,
             lookup "candidates" o = Some (JArr (candidate :: others))
             /\ lacks_content_with_parts candidate).

Definition content_without_parts_body : json :=
  JObj [("candidates",
         JArr [JObj [("content", JObj [("role", JStr "model")]);
                     ("finishReason", JStr "MAX_TOKENS")]])].

(** A body of the expected shape: [candidates[0].content.parts] is there. *)
Definition shaped (body : json) (candidate : list (string * json))
           (parts : list json) : Prop :=
  exists o others content,
    body = JObj o
    /\ lookup "candidates" o = Some (JArr (JObj candidate :: others))
    /\ lookup "content" candidate = Some (JObj content)
    /\ lookup "parts" content = Some (JArr parts).

(** A body of the expected shape with no answer text in it: there is no
    part, or the first part has no [text] key (and the grounding data, if
    any, can be read). *)
Definition no_usable_text (body : json) : Prop :=
  exists candidate parts,
    shaped body candidate parts
    /\ (parts = []
        \/ exists part others citations,
             parts = JObj part :: others
             /\ lookup "text" part = None
             /\ citations_of (JObj candidate) = Val citations).

(** A part that carries something other than text. *)
Definition function_call_body : json :=
  JObj [("candidates",
         JArr [JObj [("content",
                      JObj [("parts",
                             JArr [JObj [("functionCall",
                                          JObj [("name", JStr "search")])]]);
                            ("role", JStr "model")])]])].

(* ===================================================================== *)
(** ** Vocabulary for whole runs *)
(* ===================================================================== *)

(** What one pass through the loop body comes to, read off the reply it
    meets: the [except] clause runs, the [if] returns an answer, the [if]
    is not taken, or an exception leaves the function. *)
Inductive attempt_result : Type :=
| Failed
| Answered (answer : string)
| FellThrough
| Raised (e : exn).

Definition classify (r : reply) : attempt_result :=
  match r with
  | ConnectionFailed => Failed
  | Http status body =>
      if status_error status then Failed
      else match body with
           | None => Failed
           | Some result =>
               match read_result result with
               | Val (Some answer) => Answered answer
               | Val None => FellThrough
               | Exc e => Raised e
               end
           end
  end.

(** A call that turned [w] into [w'] did [trace] after the events that
    were there, left the upstream alone and counted its requests. *)
Definition run_from (w w' : world) (trace : list event) : Prop :=
  upstream w' = upstream w
  /\ sent w' = (posts trace + sent w)%nat
  /\ events w' = (events w ++ trace)%list.

(** In [trace] every request is the one for this key and this query. *)
Definition requests_are (API_KEY query : string) (trace : list event) : Prop :=
  Forall (fun e => match e with
                   | Post _ _ => e = request API_KEY query
                   | _ => True
                   end) trace.

(** The waits the [except] clause can make over [range]. *)
Definition backoff_waits (range : list nat) : list Z :=
  map (fun attempt => 2 ^ Z.of_nat attempt)%Z
      (filter (fun attempt => attempt <? max_retries - 1)%nat range).

(** The turns that follow the greeting: a user message, with the reply
    after it unless the fetch raised. *)
Inductive turns : list message -> Prop :=
| turns_nil : turns []
| turns_answered : forall user_query answer rest,
    user_query <> "" -> turns rest ->
    turns (mkMessage "user" user_query :: mkMessage "bot" answer :: rest)
| turns_unanswered : forall user_query rest,
    user_query <> "" -> turns rest ->
    turns (mkMessage "user" user_query :: rest).

(** The requests and waits of [failures] failed attempts in a row. *)
Definition failed_attempts (API_KEY query : string) (failures : nat) : list event :=
  flat_map (fun attempt => [request API_KEY query; Sleep (2 ^ Z.of_nat attempt)])
           (seq 0 failures).

(** An upstream that is down for the first two requests and then answers. *)
Definition down_twice_then (body : json) (n : nat) : reply :=
  match n with
  | 0 | 1 => Http 503 None
  | _ => Http 200 (Some body)
  end.

(** An answer with no grounding data. *)
Definition plain_body (answer : json) : json :=
  JObj [("candidates",
         JArr [JObj [("content", JObj [("parts", JArr [JObj [("text", answer)]])]);
                     ("finishReason", JStr "STOP")]])].

(** The first candidate of [plain_body] and its one part. *)
Definition plain_candidate (answer : json) : list (string * json) :=
  [("content", JObj [("parts", JArr [JObj [("text", answer)]])]);
   ("finishReason", JStr "STOP")].

(** A candidate with grounding attributions, and the body around it. *)
Definition grounded_candidate (answer : json) (sources : list json)
  : list (string * json) :=
  [("content", JObj [("parts", JArr [JObj [("text", answer)]]);
                     ("role", JStr "model")]);
   ("groundingMetadata", JObj [("groundingAttributions", JArr sources)])].

(** The (uri, title) pairs of attributions that can be read. *)
Definition fields_of (sources : list json) : list (json * json) :=
  map (fun source => match source_fields source with
                     | Val f => f
                     | Exc _ => (JNull, JNull)
                     end) sources.

(** Attributions with four different addresses, and then one whose [web]
    is a JSON null. *)
Definition four_sources_then_null : list json :=
  [ web_source [("uri", JStr "https://a.example")];
    web_source [("uri", JStr "https://b.example")];
    web_source [("uri", JStr "https://c.example")] ]
  ++ [ web_source [("uri", JStr "https://d.example")];
       JObj [("web", JNull)] ].

(** The same address twice, with another one between. *)
Definition source_a : json :=
  web_source [("uri", JStr "https://a.example"); ("title", JStr "A")].

Definition source_b : json :=
  web_source [("uri", JStr "https://b.example"); ("title", JStr "B")].

(** [enumerate(l)] *)
Definition enumerate {A : Type} (l : list A) : list (nat * A) :=
  combine (seq 0 (List.length l)) l.

(** A suggestion button: the column it is put in, its label and its
    widget key. *)
Record button : Type := mkButton { column : nat; label : string; key : string }.

(** [cols[i % 3].button(sug, key=f"sug_btn_{i}")] for each suggestion. *)
Definition suggestion_key (i : nat) : string :=
  "sug_btn_" ++ py_str (JNum (Z.of_nat i)).

Definition suggestion_buttons (suggestions : list string) : list button :=
  map (fun entry => match entry with
                    | (i, sug) => mkButton (i mod 3) sug (suggestion_key i)
                    end)
      (enumerate suggestions).

(** A reply after which the loop goes on to the next attempt: the attempt
    fails (no response, an error status, a body that is not JSON), or the
    body is read and the [if] is not taken. *)
Definition no_return (r : reply) : Prop :=
  transport_failure r || unparseable r = true
  \/ exists status body,
       r = Http status (Some body)
       /\ status_error status = false
       /\ without_candidate_content body.

(** A response of the expected shape that has no part. *)
Definition empty_parts_body : json :=
  JObj [("candidates",
         JArr [JObj [("content", JObj [("parts", JArr []); ("role", JStr "model")]);
                     ("finishReason", JStr "STOP")]])].

Definition empty_parts_candidate : list (string * json) :=
  [("content", JObj [("parts", JArr []); ("role", JStr "model")]);
   ("finishReason", JStr "STOP")].

(** An upstream that answers the first request with [body] and is down
    from then on. *)
Definition once_then_down (body : json) (n : nat) : reply :=
  match n with
  | 0 => Http 200 (Some body)
  | _ => ConnectionFailed
  end.

(** An upstream that is down for the first request and answers [body]
    from then on. *)
Definition down_once_then (body : json) (n : nat) : reply :=
  match n with
  | 0 => ConnectionFailed
  | _ => Http 200 (Some body)
  end.

Definition function_call_candidate : list (string * json) :=
  [("content",
    JObj [("parts", JArr [JObj [("functionCall", JObj [("name", JStr "search")])]]);
          ("role", JStr "model")])].

(** The query an event hands to [process_query], if any. *)
Definition query_of (ev : ui_event) : option string :=
  match ev with
  | Idle => None
  | Submitted user_input_text => Some user_input_text
  | SuggestionClicked i => nth_error suggestions i
  end.

(** What the runs for [evs] are to add to the transcript: for each
    non-empty query in turn the user's message, and after it the reply
    when the fetch made for it returns one, nothing when that fetch
    raises. *)
Fixpoint expected_turns (API_KEY : string) (evs : list ui_event) (w : world)
  : list message :=
  match evs with
  | [] => []
  | ev :: rest =>
      match query_of ev with
      | None => expected_turns API_KEY rest w
      | Some user_query =>
          if user_query =? "" then expected_turns API_KEY rest w
          else
            match get_gemini_response API_KEY user_query w with
            | (Val answer, w') =>
                mkMessage "user" user_query :: mkMessage "bot" answer
                :: expected_turns API_KEY rest w'
            | (Exc _, w') =>
                mkMessage "user" user_query :: expected_turns API_KEY rest w'
            end
      end
  end.

(* ===================================================================== *)
(** * Properties *)
(* ===================================================================== *)

(* ===================================================================== *)
(** ** Python values: sample evaluations *)
(* ===================================================================== *)

Example py_str_samples :
  py_str (JStr "NHS") = "NHS" /\
  py_str JNull = "None" /\
  py_str (JNum (-12)) = "-12" /\
  py_str (JArr [JStr "ab"; JBool true; JObj [("k", JNum 0)]])
    = "['ab', True, {'k': 0}]" /\
  py_repr (JStr "it's") = String "034"%char ("it's" ++ String "034"%char "").
Proof. repeat split; reflexivity. Qed.

Example py_index_samples :
  py_index0 (JArr []) = Exc IndexError /\
  py_index0 (JObj [("0", JNull)]) = Exc KeyError /\
  py_index0 (JStr "ab") = Val (JStr "a") /\
  py_getitem (JObj [("role", JStr "model")]) "parts" = Exc KeyError /\
  py_get (JObj []) "candidates" (JArr [JObj []]) = Val (JArr [JObj []]).
Proof. repeat split; reflexivity. Qed.

(* ===================================================================== *)
(** ** One attempt *)
(* ===================================================================== *)

Lemma attempt_fails API_KEY query attempt w :
  transport_failure (upstream w (sent w)) || unparseable (upstream w (sent w)) = true ->
  try_except (try_block API_KEY query) (except_block attempt) w
  = except_block attempt (posted API_KEY query w).
Proof.
  unfold try_except, try_block, bind, requests_post, posted, request.
  destruct (upstream w (sent w)) as [|status [body|]]; simpl; intros H.
  - reflexivity.
  - rewrite orb_false_r in H. unfold raise_for_status, status_error in *.
    simpl. rewrite H. reflexivity.
  - unfold raise_for_status, status_error in *. simpl.
    destruct ((400 <=? status)%Z && (status <? 600)%Z); reflexivity.
Qed.

Lemma attempt_reads API_KEY query attempt w status body r :
  upstream w (sent w) = Http status (Some body) ->
  status_error status = false ->
  read_result body = Val r ->
  try_except (try_block API_KEY query) (except_block attempt) w
  = (Val r, posted API_KEY query w).
Proof.
  intros Hup Hst Hr.
  unfold try_except, try_block, bind, requests_post, posted, request.
  rewrite Hup. unfold raise_for_status, status_error in *. simpl.
  rewrite Hst. simpl. unfold lift. rewrite Hr. reflexivity.
Qed.

Lemma api_key_present API_KEY : API_KEY <> "" -> negb (truthy (JStr API_KEY)) = false.
Proof.
  intros H. simpl. destruct (String.eqb_spec API_KEY ""); [contradiction | reflexivity].
Qed.

(** Reading the body raises none of the exceptions that the [except]
    clause catches. *)
Lemma uncaught_obind {A B} (m : outcome A) (k : A -> outcome B) :
  uncaught m -> (forall a, uncaught (k a)) -> uncaught (obind m k).
Proof. destruct m as [a | e]; cbn; auto. Qed.

Lemma uncaught_py_get v k d : uncaught (py_get v k d).
Proof. destruct v; cbn; try reflexivity. destruct (lookup k o); exact I. Qed.

Lemma uncaught_py_getitem v k : uncaught (py_getitem v k).
Proof. destruct v; cbn; try reflexivity. destruct (lookup k o); [exact I | reflexivity]. Qed.

Lemma uncaught_py_index0 v : uncaught (py_index0 v).
Proof. destruct v as [| | | [| c s] | [| x l] |]; cbn; trivial. Qed.

Lemma uncaught_py_iter v : uncaught (py_iter v).
Proof. destruct v; cbn; trivial. Qed.

Lemma uncaught_py_in v s : uncaught (py_in v s).
Proof. unfold py_in. destruct (hashable v); cbn; trivial. Qed.

Lemma uncaught_py_add_str a b : uncaught (py_add_str a b).
Proof. destruct a; cbn; trivial. Qed.

Create HintDb uncaught.

#[local] Hint Resolve uncaught_py_get uncaught_py_getitem uncaught_py_index0
  uncaught_py_iter uncaught_py_in uncaught_py_add_str : uncaught.

Ltac uncaught_steps :=
  repeat first
    [ exact I
    | solve [auto with uncaught]
    | apply uncaught_obind; [| intro]
    | match goal with
      | |- uncaught (if ?b then _ else _) => destruct b
      | |- uncaught (let (_, _) := ?p in _) => destruct p
      end ].

Lemma uncaught_source_fields source : uncaught (source_fields source).
Proof. unfold source_fields. uncaught_steps. Qed.

Lemma uncaught_citations_loop sources : forall citations unique_uris,
  uncaught (citations_loop sources citations unique_uris).
Proof.
  induction sources as [| source rest IH]; intros citations unique_uris; [exact I |].
  cbn [citations_loop].
  apply uncaught_obind; [apply uncaught_source_fields | intros [uri title]].
  destruct (truthy uri); [| apply IH].
  apply uncaught_obind; [apply uncaught_py_in | intros seen].
  destruct (negb seen); [| apply IH].
  destruct (3 <=? _)%nat; [exact I | apply IH].
Qed.

Lemma uncaught_read_result body : uncaught (read_result body).
Proof.
  unfold read_result, candidate_has_parts, citations_of, grounding_sources.
  pose proof uncaught_citations_loop.
  uncaught_steps.
Qed.

(** So an exception raised while reading the body ends the call there:
    it is neither retried nor turned into the apology. *)
Lemma attempt_raises API_KEY query attempt w status body e :
  upstream w (sent w) = Http status (Some body) ->
  status_error status = false ->
  read_result body = Exc e ->
  try_except (try_block API_KEY query) (except_block attempt) w
  = (Exc e, posted API_KEY query w).
Proof.
  intros Hup Hst Hr.
  pose proof (uncaught_read_result body) as Hun. rewrite Hr in Hun. cbn in Hun.
  unfold try_except, try_block, bind, requests_post, posted, request.
  rewrite Hup. unfold raise_for_status, status_error in *. simpl.
  rewrite Hst. simpl. unfold lift. rewrite Hr, Hun. reflexivity.
Qed.

Lemma shape_error_ends_the_call API_KEY query w status body e :
  API_KEY <> "" ->
  upstream w (sent w) = Http status (Some body) ->
  status_error status = false ->
  read_result body = Exc e ->
  get_gemini_response API_KEY query w = (Exc e, posted API_KEY query w).
Proof.
  intros Hkey Hup Hst Hr.
  unfold get_gemini_response. rewrite (api_key_present _ Hkey).
  change (seq 0 max_retries) with [0; 1; 2]%nat.
  cbn [attempts]. unfold bind at 1.
  rewrite (attempt_raises API_KEY query 0 w status body e Hup Hst Hr).
  reflexivity.
Qed.

(* ===================================================================== *)
(** ** Runs in which every attempt fails *)
(* ===================================================================== *)

Lemma except_block_waits attempt w :
  (attempt < 2)%nat ->
  except_block attempt w = (Val None, emit (Sleep (2 ^ Z.of_nat attempt)) w).
Proof.
  intros H. unfold except_block, max_retries.
  destruct (Nat.ltb_spec attempt (3 - 1)); [reflexivity | simpl in *; lia].
Qed.

Lemma except_block_gives_up w :
  except_block 2 w = (Val (Some meta.api_fail), emit (StError connect_error_message) w).
Proof. reflexivity. Qed.

Lemma three_failures API_KEY query w :
  API_KEY <> "" ->
  (forall k, (k < 3)%nat ->
     transport_failure (upstream w (k + sent w))
     || unparseable (upstream w (k + sent w)) = true) ->
  get_gemini_response API_KEY query w
  = (Val meta.api_fail, after_three_failures API_KEY query w).
Proof.
  intros Hkey Hfail.
  unfold get_gemini_response. rewrite (api_key_present _ Hkey).
  change (seq 0 max_retries) with [0; 1; 2]%nat.
  cbn [attempts]. unfold bind at 1.
  rewrite attempt_fails by (apply (Hfail 0%nat); lia).
  rewrite except_block_waits by lia.
  unfold bind at 1.
  rewrite attempt_fails by (apply (Hfail 1%nat); lia).
  rewrite except_block_waits by lia.
  unfold bind at 1.
  rewrite attempt_fails by (apply (Hfail 2%nat); lia).
  rewrite except_block_gives_up.
  unfold ret, emit, posted, after_three_failures. cbn [upstream sent events].
  repeat rewrite <- app_assoc. reflexivity.
Qed.

(** C4. A transport that fails on every attempt (no response, or a 4xx/5xx
    status) is tried exactly three times: the request, a wait of 1, the
    request, a wait of 2, the request, and then, with no further wait, the
    diagnostic and the fixed apology text. *)
Theorem permanent_failure_three_attempts (API_KEY query : string) (w : world) :
  API_KEY <> "" ->
  (forall k, (k < 3)%nat -> transport_failure (upstream w (k + sent w)) = true) ->
  exists w',
    get_gemini_response API_KEY query w = (Val meta.api_fail, w')
    /\ sent w' = (3 + sent w)%nat
    /\ events w' = (events w ++ [ request API_KEY query; Sleep 1;
                                 request API_KEY query; Sleep 2;
                                 request API_KEY query;
                                 StError connect_error_message ])%list.
Proof.
  intros Hkey Hfail.
  exists (after_three_failures API_KEY query w). split; [| split; reflexivity].
  apply three_failures; [assumption |].
  intros k Hk. rewrite (Hfail k Hk). reflexivity.
Qed.

Lemma permanent_failure_three_attempts_witness :
  exists w',
    get_gemini_response "secret" "Can stress raise my blood pressure?"
      (steady (Http 503 None)) = (Val meta.api_fail, w')
    /\ sent w' = 3%nat
    /\ events w' = [ request "secret" "Can stress raise my blood pressure?"; Sleep 1;
                     request "secret" "Can stress raise my blood pressure?"; Sleep 2;
                     request "secret" "Can stress raise my blood pressure?";
                     StError connect_error_message ].
Proof.
  apply (permanent_failure_three_attempts "secret"
           "Can stress raise my blood pressure?" (steady (Http 503 None))).
  - discriminate.
  - intros k _. reflexivity.
Defined.

(** C2, refuted as stated.  A parseable body that lacks the expected shape
    is not handled like a transport error: with [blocked_prompt_body] on
    every attempt the three requests follow each other with no wait and
    the result is the placeholder, not the apology. *)
Lemma shapeless_body_not_like_transport_error :
  get_gemini_response "secret" "q" (steady (Http 200 (Some blocked_prompt_body)))
  = (Val meta.placeholder_fail,
     mkWorld (fun _ => Http 200 (Some blocked_prompt_body)) 3
       [request "secret" "q"; request "secret" "q"; request "secret" "q"])
  /\ ~ retried_like_transport_error "secret" "q" (Some blocked_prompt_body).
Proof.
  split.
  - reflexivity.
  - intros [H _]. vm_compute in H. discriminate H.
Qed.

(** C2, amended.  A body that cannot be parsed is handled exactly like a
    transport error.  Whenever each of the three attempts meets one or the
    other, every attempt is followed by its backoff wait and after the
    third the fixed apology text is returned: the run has the result, the
    request count and the events of the run in which the upstream never
    answers. *)
Theorem unparseable_body_like_transport_error (API_KEY query : string) (w : world) :
  API_KEY <> "" ->
  (forall k, (k < 3)%nat ->
     unparseable (upstream w (k + sent w)) = true
     \/ transport_failure (upstream w (k + sent w)) = true) ->
  let run := get_gemini_response API_KEY query w in
  let ref := get_gemini_response API_KEY query
               (mkWorld (fun _ => ConnectionFailed) (sent w) (events w)) in
  fst run = Val meta.api_fail
  /\ sleeps (events (snd run)) = (sleeps (events w) ++ [1; 2]%Z)%list
  /\ fst run = fst ref
  /\ sent (snd run) = sent (snd ref)
  /\ events (snd run) = events (snd ref).
Proof.
  intros Hkey Hbad run ref. subst run ref.
  rewrite (three_failures API_KEY query w Hkey)
    by (intros k Hk; destruct (Hbad k Hk) as [H | H]; rewrite H;
        [apply orb_true_r | reflexivity]).
  rewrite (three_failures API_KEY query _ Hkey) by (intros k Hk; reflexivity).
  cbn [fst snd after_three_failures events sent].
  repeat split.
  unfold sleeps. rewrite flat_map_app. reflexivity.
Qed.

Lemma unparseable_body_like_transport_error_witness :
  let w := mkWorld html_then_timeout_then_html 0 [] in
  let run := get_gemini_response "secret" "q" w in
  let ref := get_gemini_response "secret" "q"
               (mkWorld (fun _ => ConnectionFailed) (sent w) (events w)) in
  fst run = Val meta.api_fail
  /\ sleeps (events (snd run)) = (sleeps (events w) ++ [1; 2]%Z)%list
  /\ fst run = fst ref
  /\ sent (snd run) = sent (snd ref)
  /\ events (snd run) = events (snd ref).
Proof.
  apply (unparseable_body_like_transport_error "secret" "q"
           (mkWorld html_then_timeout_then_html 0 [])).
  - discriminate.
  - intros k _. destruct k as [| [| k]]; [left | right | left]; reflexivity.
Defined.

(** An empty [candidates] list does not reach the retry logic at all:
    [[][0]] raises an exception that the [except] clause does not catch. *)
Lemma empty_candidates_raises_IndexError :
  fst (get_gemini_response "secret" "q"
         (steady (Http 200 (Some (JObj [("candidates", JArr [])])))))
  = Exc IndexError.
Proof. reflexivity. Qed.

(* ===================================================================== *)
(** ** Missing credential *)
(* ===================================================================== *)

(** C5. Without a credential (no [GEMINI_API_KEY] secret, or an empty one)
    the fetcher reports the missing key and returns the fixed apology text
    at once: no request is sent and nothing is waited for. *)
Theorem missing_credential_short_circuits
        (secrets : list (string * string)) (query : string) (w : world) :
  load_API_KEY secrets = "" ->
  exists w',
    get_gemini_response (load_API_KEY secrets) query w = (Val meta.api_fail, w')
    /\ sent w' = sent w
    /\ upstream w' = upstream w
    /\ posts (events w') = posts (events w)
    /\ sleeps (events w') = sleeps (events w)
    /\ events w' = (events w ++ [StError "API Key is missing. Please ensure it is set up correctly in your environment (Canvas or local secrets)."])%list.
Proof.
  intros Habsent. rewrite Habsent.
  eexists. split; [reflexivity |].
  cbn [sent upstream events emit].
  unfold posts, sleeps. rewrite filter_app, flat_map_app, length_app.
  cbn. rewrite Nat.add_0_r, app_nil_r. repeat split.
Qed.

Lemma missing_credential_short_circuits_witness :
  exists w',
    get_gemini_response (load_API_KEY [("OTHER_KEY", "x")])
      "What is hypertension?" (steady ConnectionFailed) = (Val meta.api_fail, w')
    /\ sent w' = sent (steady ConnectionFailed)
    /\ upstream w' = upstream (steady ConnectionFailed)
    /\ posts (events w') = posts (events (steady ConnectionFailed))
    /\ sleeps (events w') = sleeps (events (steady ConnectionFailed))
    /\ events w' = (events (steady ConnectionFailed) ++ [StError "API Key is missing. Please ensure it is set up correctly in your environment (Canvas or local secrets)."])%list.
Proof.
  apply (missing_credential_short_circuits [("OTHER_KEY", "x")]
           "What is hypertension?" (steady ConnectionFailed)).
  reflexivity.
Defined.

(* ===================================================================== *)
(** ** The transcript *)
(* ===================================================================== *)

(** C1, refuted as stated.  [process_query] tests the query itself, not
    the trimmed query: a single space is appended as a user turn and
    fetched (three requests here, against an upstream that never answers). *)
Lemma blank_query_is_processed :
  blank " " = true
  /\ process_query "secret" " " (mkSession (Some [greeting_message]))
       (steady ConnectionFailed)
     = (Val tt,
        mkSession (Some [greeting_message; mkMessage "user" " ";
                         mkMessage "bot" meta.api_fail]),
        after_three_failures "secret" " " (steady ConnectionFailed))
  /\ ~ (forall API_KEY user_query ss w,
          blank user_query = true ->
          process_query API_KEY user_query ss w = (Val tt, ss, w)).
Proof.
  split; [reflexivity | split; [reflexivity |]].
  intros H.
  specialize (H "secret" " " (mkSession (Some [greeting_message]))
                (steady ConnectionFailed) eq_refl).
  vm_compute in H. discriminate H.
Qed.

(** C1, amended.  Submitting a query is a no-op, with the session and the
    world left as they were (nothing appended, nothing fetched), exactly
    when the query is the empty string. *)
Theorem process_query_noop_iff_empty
        (API_KEY user_query : string) (ss : session_state) (w : world) :
  process_query API_KEY user_query ss w = (Val tt, ss, w) <-> user_query = "".
Proof.
  split.
  - intros Hnoop. destruct (String.eqb_spec user_query "") as [| Hq]; [assumption |].
    exfalso. unfold process_query in Hnoop.
    rewrite (api_key_present _ Hq) in Hnoop. unfold messages_append in Hnoop.
    destruct ss as [[transcript |]]; cbn [messages] in Hnoop; [| discriminate Hnoop].
    destruct (get_gemini_response API_KEY user_query w) as [[answer | e] w'];
      [| discriminate Hnoop].
    injection Hnoop as Hgrown _.
    apply (f_equal (@List.length message)) in Hgrown.
    rewrite !length_app in Hgrown. cbn in Hgrown. lia.
  - intros ->. reflexivity.
Qed.

Lemma process_query_noop_iff_empty_witness :
  process_query "secret" "" (mkSession (Some [greeting_message]))
    (steady ConnectionFailed)
  = (Val tt, mkSession (Some [greeting_message]), steady ConnectionFailed).
Proof.
  apply (proj2 (process_query_noop_iff_empty "secret" ""
                  (mkSession (Some [greeting_message])) (steady ConnectionFailed))).
  reflexivity.
Defined.

(** C7. A non-empty query whose fetch returns a text makes the transcript
    grow by exactly two messages, the user's and then the assistant's,
    after the messages that were there, which stay as they were. *)
Theorem process_query_appends_two
        (API_KEY user_query : string) (ss : session_state) (w w' : world)
        (transcript : list message) (answer : string) :
  user_query <> "" ->
  messages ss = Some transcript ->
  get_gemini_response API_KEY user_query w = (Val answer, w') ->
  exists ss',
    process_query API_KEY user_query ss w = (Val tt, ss', w')
    /\ messages ss' = Some (transcript ++ [mkMessage "user" user_query;
                                           mkMessage "bot" answer])%list
    /\ (exists grown, messages ss' = Some grown
          /\ List.length grown = (List.length transcript + 2)%nat
          /\ firstn (List.length transcript) grown = transcript).
Proof.
  intros Hq Hmsgs Hfetch.
  unfold process_query.
  assert (Ht : negb (truthy (JStr user_query)) = false) by (apply api_key_present; exact Hq).
  rewrite Ht. unfold messages_append. rewrite Hmsgs, Hfetch. cbn [messages].
  eexists. split; [reflexivity |]. cbn [messages].
  rewrite <- app_assoc. cbn [app].
  split; [reflexivity |].
  eexists. split; [reflexivity |]. split.
  - rewrite length_app. reflexivity.
  - rewrite firstn_app, Nat.sub_diag, firstn_all. cbn. apply app_nil_r.
Qed.

Lemma process_query_appends_two_witness :
  exists ss',
    process_query "secret" "Can stress raise my blood pressure?"
      (mkSession (Some [greeting_message]))
      (steady (Http 200 (Some (answer_body (JStr "Yes, briefly.") (JArr [])))))
    = (Val tt, ss',
       mkWorld (fun _ => Http 200 (Some (answer_body (JStr "Yes, briefly.") (JArr []))))
         1 [request "secret" "Can stress raise my blood pressure?"])
    /\ messages ss'
       = Some ([greeting_message]
               ++ [mkMessage "user" "Can stress raise my blood pressure?";
                   mkMessage "bot" "Yes, briefly."])%list
    /\ (exists grown, messages ss' = Some grown
          /\ List.length grown = (List.length [greeting_message] + 2)%nat
          /\ firstn (List.length [greeting_message]) grown = [greeting_message]).
Proof.
  apply (process_query_appends_two "secret" "Can stress raise my blood pressure?"
           (mkSession (Some [greeting_message]))
           (steady (Http 200 (Some (answer_body (JStr "Yes, briefly.") (JArr [])))))).
  - discriminate.
  - reflexivity.
  - reflexivity.
Defined.

(** [process_query] only ever appends. *)
Lemma process_query_extends API_KEY user_query ss w transcript :
  messages ss = Some transcript ->
  exists extra,
    messages (snd (fst (process_query API_KEY user_query ss w)))
    = Some (transcript ++ extra)%list.
Proof.
  intros Hmsgs. unfold process_query.
  destruct (negb (truthy (JStr user_query))).
  - exists []. cbn. rewrite app_nil_r. exact Hmsgs.
  - unfold messages_append. rewrite Hmsgs.
    destruct (get_gemini_response API_KEY user_query w) as [[answer | e] w'];
      cbn [messages fst snd].
    + eexists. rewrite <- app_assoc. reflexivity.
    + eexists. reflexivity.
Qed.

Lemma app_extends API_KEY ev ss w transcript :
  messages (init_messages ss) = Some transcript ->
  exists extra,
    messages (snd (fst (app API_KEY ev ss w))) = Some (transcript ++ extra)%list.
Proof.
  intros Hmsgs. unfold app.
  destruct ev as [| user_input_text | i].
  - exists []. cbn. rewrite app_nil_r. exact Hmsgs.
  - apply process_query_extends. exact Hmsgs.
  - destruct (nth_error suggestions i).
    + apply process_query_extends. exact Hmsgs.
    + exists []. cbn. rewrite app_nil_r. exact Hmsgs.
Qed.

Lemma init_messages_keeps ss transcript :
  messages ss = Some transcript -> init_messages ss = ss.
Proof. intros H. unfold init_messages. rewrite H. reflexivity. Qed.

Lemma init_messages_idem ss : init_messages (init_messages ss) = init_messages ss.
Proof. unfold init_messages. destruct (messages ss) eqn:E; cbn; [rewrite E |]; reflexivity. Qed.

Lemma app_runs_keep_greeting API_KEY evs : forall ss w rest,
  messages ss = Some (greeting_message :: rest) ->
  exists rest',
    messages (fst (app_runs API_KEY evs ss w)) = Some (greeting_message :: rest').
Proof.
  induction evs as [| ev evs IH]; intros ss w rest Hmsgs.
  - exists rest. exact Hmsgs.
  - cbn [app_runs].
    destruct (app_extends API_KEY ev ss w (greeting_message :: rest)) as [extra He].
    { rewrite (init_messages_keeps ss _ Hmsgs). exact Hmsgs. }
    destruct (app API_KEY ev ss w) as [[r ss'] w']. cbn [fst snd] in He.
    apply (IH ss' w' (rest ++ extra)%list). exact He.
Qed.

Lemma idle_runs_leave_session API_KEY n : forall ss w,
  app_runs API_KEY (repeat Idle n) ss w
  = (match n with O => ss | S _ => init_messages ss end, w).
Proof.
  induction n as [| n IH]; intros ss w; [reflexivity |].
  cbn [repeat app_runs app]. rewrite IH.
  destruct n; [reflexivity |].
  rewrite init_messages_idem. reflexivity.
Qed.

Lemma app_runs_from_fresh API_KEY evs w :
  init_messages (fst (app_runs API_KEY evs fresh_session w))
  = fst (app_runs API_KEY evs (init_messages fresh_session) w)
  /\ snd (app_runs API_KEY evs fresh_session w)
     = snd (app_runs API_KEY evs (init_messages fresh_session) w).
Proof.
  destruct evs as [| ev evs]; [split; reflexivity |].
  cbn [app_runs]. unfold app at 2 4. rewrite init_messages_idem.
  fold (app API_KEY ev fresh_session w).
  destruct (app_extends API_KEY ev fresh_session w [greeting_message] eq_refl)
    as [extra He].
  destruct (app API_KEY ev fresh_session w) as [[r ss'] w']. cbn [fst snd] in He.
  destruct (app_runs_keep_greeting API_KEY evs ss' w' extra He) as [rest Hrest].
  rewrite (init_messages_keeps _ _ Hrest). split; reflexivity.
Qed.

(** C10. [app] sets the transcript up before it handles the event.  On a
    session that has seen no submit (any number of runs of the script
    with no submit in them) a submitted text and a clicked suggestion are
    processed on a transcript that is exactly the one greeting message,
    with the assistant's role.  After any runs whatever, the next submit
    is processed on a transcript that starts with that greeting, and the
    session keeps a transcript that starts with it. *)
Theorem transcript_starts_with_greeting (API_KEY : string) (w : world) :
  (forall n user_input_text,
     app API_KEY (Submitted user_input_text)
       (fst (app_runs API_KEY (repeat Idle n) fresh_session w))
       (snd (app_runs API_KEY (repeat Idle n) fresh_session w))
     = process_query API_KEY user_input_text
         (mkSession (Some [mkMessage "bot" meta.initial_greeting])) w)
  /\ (forall n i,
        app API_KEY (SuggestionClicked i)
          (fst (app_runs API_KEY (repeat Idle n) fresh_session w))
          (snd (app_runs API_KEY (repeat Idle n) fresh_session w))
        = match nth_error suggestions i with
          | Some sug =>
              process_query API_KEY sug
                (mkSession (Some [mkMessage "bot" meta.initial_greeting])) w
          | None =>
              (Val tt, mkSession (Some [mkMessage "bot" meta.initial_greeting]), w)
          end)
  /\ (forall evs user_input_text, exists rest,
        app API_KEY (Submitted user_input_text)
          (fst (app_runs API_KEY evs fresh_session w))
          (snd (app_runs API_KEY evs fresh_session w))
        = process_query API_KEY user_input_text
            (mkSession (Some (mkMessage "bot" meta.initial_greeting :: rest)))
            (snd (app_runs API_KEY evs fresh_session w)))
  /\ (forall ev evs, exists rest,
        messages (fst (app_runs API_KEY (ev :: evs) fresh_session w))
        = Some (mkMessage "bot" meta.initial_greeting :: rest)).
Proof.
  assert (Hidle : forall n,
            init_messages (fst (app_runs API_KEY (repeat Idle n) fresh_session w))
            = mkSession (Some [mkMessage "bot" meta.initial_greeting])
            /\ snd (app_runs API_KEY (repeat Idle n) fresh_session w) = w).
  { intros n. rewrite idle_runs_leave_session. destruct n; split; reflexivity. }
  assert (Hany : forall evs, exists rest,
            init_messages (fst (app_runs API_KEY evs fresh_session w))
            = mkSession (Some (mkMessage "bot" meta.initial_greeting :: rest))).
  { intros evs. destruct (app_runs_from_fresh API_KEY evs w) as [-> _].
    destruct (app_runs_keep_greeting API_KEY evs (init_messages fresh_session) w []
                eq_refl) as [rest Hrest].
    exists rest.
    destruct (fst (app_runs API_KEY evs (init_messages fresh_session) w)) as [m].
    cbn [messages] in Hrest. rewrite Hrest. reflexivity. }
  split; [| split; [| split]].
  - intros n user_input_text. destruct (Hidle n) as [Hs Hw].
    unfold app. rewrite Hs, Hw. reflexivity.
  - intros n i. destruct (Hidle n) as [Hs Hw].
    unfold app. rewrite Hs, Hw. reflexivity.
  - intros evs user_input_text. destruct (Hany evs) as [rest Hrest].
    exists rest. unfold app. rewrite Hrest. reflexivity.
  - intros ev evs. destruct (Hany (ev :: evs)) as [rest Hrest]. exists rest.
    cbn [app_runs] in *.
    destruct (app_extends API_KEY ev fresh_session w [greeting_message] eq_refl)
      as [extra He].
    destruct (app API_KEY ev fresh_session w) as [[r ss'] w']. cbn [fst snd] in He.
    destruct (app_runs_keep_greeting API_KEY evs ss' w' extra He) as [rest' Hrest'].
    rewrite (init_messages_keeps _ _ Hrest') in Hrest. rewrite Hrest. reflexivity.
Qed.

(* ===================================================================== *)
(** ** Citations *)
(* ===================================================================== *)

Lemma append_assoc (a b c : string) : (a ++ b) ++ c = a ++ (b ++ c).
Proof. induction a as [| x a IH]; cbn; [| rewrite IH]; reflexivity. Qed.

Lemma append_nil_r (a : string) : a ++ "" = a.
Proof. induction a as [| x a IH]; cbn; [| rewrite IH]; reflexivity. Qed.

Lemma citations_loop_first_occurrences sources fields :
  Forall2 (fun source f => source_fields source = Val f) sources fields ->
  Forall (fun f => truthy (fst f) = true -> hashable (fst f) = true) fields ->
  forall citations unique_uris,
    (List.length unique_uris < 3)%nat ->
    citations_loop sources citations unique_uris
    = Val (citations
           ++ render (firstn (3 - List.length unique_uris)
                        (first_occurrences unique_uris (filter has_uri fields)))).
Proof.
  induction 1 as [| source [uri title] sources fields Hread _ IH];
    intros Hhash citations unique_uris Hlen.
  - cbn [citations_loop filter first_occurrences]. rewrite firstn_nil.
    cbn [render]. rewrite append_nil_r. reflexivity.
  - inversion Hhash as [| ? ? Hu Hrest]; subst. cbn [fst] in Hu.
    cbn [citations_loop filter]. rewrite Hread. cbn [obind].
    change (has_uri (uri, title)) with (truthy uri).
    destruct (truthy uri) eqn:Ht.
    + unfold py_in. rewrite (Hu eq_refl). cbn [obind first_occurrences fst].
      destruct (existsb (py_eqb uri) unique_uris) eqn:Hseen; cbn [negb].
      * apply IH; assumption.
      * cbn [List.length].
        destruct (Nat.leb_spec 3 (S (List.length unique_uris))) as [Hfull | Hroom].
        -- replace (3 - List.length unique_uris)%nat with 1%nat by lia.
           cbn [firstn render snd fst]. rewrite append_nil_r. reflexivity.
        -- replace (3 - List.length unique_uris)%nat
             with (S (3 - S (List.length unique_uris)))%nat by lia.
           cbn [firstn render snd fst].
           rewrite (IH Hrest _ (uri :: unique_uris)) by (cbn; lia).
           cbn [List.length]. rewrite append_assoc. reflexivity.
    + apply IH; assumption.
Qed.

Lemma first_occurrences_unseen fields : forall seen c,
  In c (first_occurrences seen fields) -> existsb (py_eqb (fst c)) seen = false.
Proof.
  induction fields as [| f rest IH]; intros seen c Hin; [contradiction |].
  cbn [first_occurrences] in Hin.
  destruct (existsb (py_eqb (fst f)) seen) eqn:Hseen.
  - apply IH. exact Hin.
  - destruct Hin as [-> | Hin]; [exact Hseen |].
    apply IH in Hin. cbn [existsb] in Hin.
    apply orb_false_iff in Hin. apply Hin.
Qed.

Lemma first_occurrences_incl fields : forall seen c,
  In c (first_occurrences seen fields) -> In c fields.
Proof.
  induction fields as [| f rest IH]; intros seen c Hin; [contradiction |].
  cbn [first_occurrences] in Hin.
  destruct (existsb (py_eqb (fst f)) seen).
  - right. eapply IH. exact Hin.
  - destruct Hin as [-> | Hin]; [left; reflexivity | right; eapply IH; exact Hin].
Qed.

Lemma first_occurrences_distinct fields : forall seen,
  distinct_uris (first_occurrences seen fields).
Proof.
  induction fields as [| f rest IH]; intros seen; [exact I |].
  cbn [first_occurrences].
  destruct (existsb (py_eqb (fst f)) seen); [apply IH |].
  split; [| apply IH].
  apply Forall_forall. intros d Hd.
  apply first_occurrences_unseen in Hd. cbn [existsb] in Hd.
  apply orb_false_iff in Hd. apply Hd.
Qed.

Lemma first_occurrences_subsequence fields : forall n seen,
  subsequence (firstn n (first_occurrences seen (filter has_uri fields))) fields.
Proof.
  induction fields as [| f rest IH]; intros n seen.
  - cbn [filter first_occurrences]. rewrite firstn_nil. constructor.
  - cbn [filter]. destruct (has_uri f).
    + cbn [first_occurrences]. destruct (existsb (py_eqb (fst f)) seen).
      * apply subsequence_skip, IH.
      * destruct n; cbn [firstn]; [constructor | apply subsequence_keep, IH].
    + apply subsequence_skip, IH.
Qed.

Lemma In_firstn {A} n : forall (l : list A) x, In x (firstn n l) -> In x l.
Proof.
  induction n as [| n IH]; intros [| a l] x H; try contradiction.
  destruct H as [-> | H]; [left; reflexivity | right; apply IH; exact H].
Qed.

Lemma distinct_uris_firstn n : forall citations,
  distinct_uris citations -> distinct_uris (firstn n citations).
Proof.
  induction n as [| n IH]; intros [| c rest] H; try exact I.
  destruct H as [Hc Hrest]. split; [| apply IH; exact Hrest].
  apply Forall_forall. intros d Hd. apply In_firstn in Hd.
  revert d Hd. apply Forall_forall. exact Hc.
Qed.

Lemma py_eqb_refl v : hashable v = true -> py_eqb v v = true.
Proof.
  destruct v as [| b | n | s | l | o]; cbn; intros H; try discriminate H.
  - reflexivity.
  - destruct b; reflexivity.
  - apply Z.eqb_refl.
  - apply String.eqb_refl.
Qed.

Lemma distinct_uris_NoDup citations :
  Forall (fun c => hashable (fst c) = true) citations ->
  distinct_uris citations -> NoDup (map fst citations).
Proof.
  induction citations as [| c rest IH]; intros Hh Hd; [constructor |].
  inversion Hh as [| ? ? Hc Hrest]; subst. destruct Hd as [Hfresh Hd].
  cbn [map]. constructor; [| apply IH; assumption].
  intros Hin. apply in_map_iff in Hin. destruct Hin as [d [Heq Hd']].
  rewrite Forall_forall in Hfresh. specialize (Hfresh d Hd').
  rewrite Heq, (py_eqb_refl _ Hc) in Hfresh. discriminate Hfresh.
Qed.

Lemma citation_list_from_fields fields c :
  In c (citation_list fields) -> In c fields /\ truthy (fst c) = true.
Proof.
  unfold citation_list. intros Hin.
  apply In_firstn, first_occurrences_incl, filter_In in Hin. exact Hin.
Qed.

Lemma lacks_title_gives_Link source uri title :
  source_fields source = Val (uri, title) -> lacks_title source -> title = JStr "Link".
Proof.
  unfold source_fields, lacks_title.
  destruct source as [| | | | | o]; try contradiction.
  cbn [py_get]. destruct (lookup "web" o) as [[| | | | | web] |]; try contradiction.
  - cbn. intros H Hno. rewrite Hno in H.
    destruct (lookup "uri" web); cbn in H; congruence.
  - cbn. congruence.
Qed.

Lemma attribution_ok_fields source :
  attribution_ok source ->
  exists f, source_fields source = Val f
            /\ (truthy (fst f) = true -> hashable (fst f) = true).
Proof.
  intros [o [-> Hweb]]. unfold source_fields. cbn [py_get].
  destruct (lookup "web" o) as [[| | | | | web] |]; try contradiction.
  - cbn [obind py_get].
    destruct (lookup "uri" web) as [uri |]; cbn [obind];
      destruct (lookup "title" web); eexists; split; try reflexivity; cbn; auto.
  - cbn. eexists. split; [reflexivity |]. cbn. discriminate.
Qed.

(** Attributions of the documented form can all be read, so the loop
    returns on them. *)
Lemma attributions_readable sources :
  Forall attribution_ok sources -> exists fields, readable sources fields.
Proof.
  induction 1 as [| source rest Hok _ [fields [Hread Hhash]]].
  - exists []. split; constructor.
  - destruct (attribution_ok_fields source Hok) as [f [Hf Hh]].
    exists (f :: fields). split; constructor; assumption.
Qed.

(** C6. For attributions that can be read, the loop writes exactly the
    lines of [citation_list]: the attributions that have a URI, each URI
    at its first occurrence only and in the order met, three at most.  So
    every citation is an attribution with a non-empty URI, the citations
    follow the order of the attributions, no URI comes twice, and there
    are at most three; an attribution without a title is given the title
    ["Link"]. *)
Theorem citations_deduplicated_and_capped
        (sources : list json) (fields : list (json * json)) :
  readable sources fields ->
  let citations := citation_list fields in
  citations_loop sources sources_header [] = Val (sources_header ++ render citations)
  /\ Forall (fun c => In c fields /\ truthy (fst c) = true) citations
  /\ subsequence citations fields
  /\ distinct_uris citations
  /\ NoDup (map fst citations)
  /\ (List.length citations <= 3)%nat
  /\ (forall source uri title,
        In source sources ->
        source_fields source = Val (uri, title) ->
        lacks_title source ->
        title = JStr "Link").
Proof.
  intros [Hread Hhash] citations.
  assert (Hfrom : Forall (fun c => In c fields /\ truthy (fst c) = true) citations).
  { apply Forall_forall. intros c Hc. apply citation_list_from_fields. exact Hc. }
  assert (Hdistinct : distinct_uris citations).
  { apply distinct_uris_firstn, first_occurrences_distinct. }
  split; [| split; [exact Hfrom | split; [apply first_occurrences_subsequence |
    split; [exact Hdistinct | split; [| split]]]]].
  - rewrite (citations_loop_first_occurrences sources fields Hread Hhash)
      by (cbn; lia).
    reflexivity.
  - apply distinct_uris_NoDup; [| exact Hdistinct].
    apply Forall_forall. intros c Hc.
    rewrite Forall_forall in Hfrom, Hhash.
    destruct (Hfrom c Hc) as [Hin Ht]. apply (Hhash c Hin Ht).
  - apply firstn_le_length.
  - intros source uri title _. apply lacks_title_gives_Link.
Qed.

Example sample_citation_list :
  citation_list sample_fields
  = [ (JStr "https://a.example", JStr "A");
      (JStr "https://b.example", JStr "Link");
      (JStr "https://c.example", JStr "C") ].
Proof. reflexivity. Qed.

Example sample_citations_text :
  citations_loop sample_sources sources_header []
  = Val (sources_header
         ++ "- [A](https://a.example)" ++ nl
         ++ "- [Link](https://b.example)" ++ nl
         ++ "- [C](https://c.example)" ++ nl).
Proof. reflexivity. Qed.

Lemma citations_deduplicated_and_capped_witness :
  let citations := citation_list sample_fields in
  citations_loop sample_sources sources_header []
  = Val (sources_header ++ render citations)
  /\ Forall (fun c => In c sample_fields /\ truthy (fst c) = true) citations
  /\ subsequence citations sample_fields
  /\ distinct_uris citations
  /\ NoDup (map fst citations)
  /\ (List.length citations <= 3)%nat
  /\ (forall source uri title,
        In source sample_sources ->
        source_fields source = Val (uri, title) ->
        lacks_title source ->
        title = JStr "Link").
Proof.
  apply (citations_deduplicated_and_capped sample_sources sample_fields).
  split.
  - repeat constructor.
  - repeat constructor.
Defined.

(** When no attribution has a URI the heading is all that the loop
    leaves in [citations]. *)
Lemma heading_without_citations sources fields :
  readable sources fields ->
  Forall (fun f => truthy (fst f) = false) fields ->
  citation_list fields = []
  /\ citations_loop sources sources_header [] = Val sources_header.
Proof.
  intros [Hread Hhash] Hnone.
  assert (Hfilter : filter has_uri fields = []).
  { clear Hread Hhash. induction Hnone as [| f rest Hf _ IH]; [reflexivity |].
    cbn [filter]. unfold has_uri at 1. rewrite Hf. exact IH. }
  split.
  - unfold citation_list. rewrite Hfilter. reflexivity.
  - rewrite (citations_loop_first_occurrences sources fields Hread Hhash)
      by (cbn; lia).
    rewrite Hfilter. cbn [List.length Nat.sub first_occurrences firstn render].
    rewrite append_nil_r. reflexivity.
Qed.

(** Answers without grounding attributions are returned as they are. *)
Lemma no_attributions_text_unmodified (answer : string) :
  read_result (answer_body (JStr answer) (JArr [])) = Val (Some answer).
Proof.
  unfold answer_body. cbn -[append]. rewrite append_nil_r. reflexivity.
Qed.

(** C3, at the input where the code departs from it.  The answer comes
    with one grounding attribution that has a title and no URI: no citation
    is extracted, and yet the text is not returned as it is, the
    ["Sources"] heading is appended to it. *)
Theorem sources_heading_without_citation :
  let attribution := web_source [("title", JStr "NHS")] in
  let body := answer_body (JStr "Reduce sodium intake.") (JArr [attribution]) in
  source_fields attribution = Val (JNull, JStr "NHS")
  /\ citation_list [(JNull, JStr "NHS")] = []
  /\ fst (get_gemini_response "secret" "What is the optimal diet?"
            (steady (Http 200 (Some body))))
     = Val ("Reduce sodium intake." ++ sources_header)
  /\ "Reduce sodium intake." ++ sources_header <> "Reduce sodium intake."
  /\ sources_header = nl ++ nl ++ "---" ++ nl ++ "**Sources:**" ++ nl.
Proof.
  repeat split; try reflexivity.
  intros H. vm_compute in H. discriminate H.
Qed.

(* ===================================================================== *)
(** ** Responses without an answer *)
(* ===================================================================== *)

Lemma candidate_has_parts_false candidate :
  lacks_content_with_parts candidate -> candidate_has_parts candidate = Val false.
Proof.
  unfold candidate_has_parts. intros [Hfalsy | [c [-> Hc]]].
  - rewrite Hfalsy. reflexivity.
  - destruct (truthy (JObj c)); [| reflexivity]. cbn [negb py_get py_getitem].
    destruct (lookup "content" c) as [content |]; [| reflexivity].
    cbn [obind]. destruct Hc as [Hfalsy | [ct [parts [-> [Hparts Hfalsy]]]]].
    + rewrite Hfalsy. reflexivity.
    + destruct (truthy (JObj ct)); [| reflexivity].
      cbn [negb obind py_getitem]. rewrite Hparts. cbn [obind].
      rewrite Hfalsy. reflexivity.
Qed.

Lemma read_without_candidate_content body :
  without_candidate_content body -> read_result body = Val None.
Proof.
  intros [o [-> [Hnone | [candidate [others [Hsome Hlacks]]]]]];
    unfold read_result; cbn [py_get].
  - rewrite Hnone. reflexivity.
  - rewrite Hsome. cbn [obind py_index0].
    rewrite (candidate_has_parts_false _ Hlacks). reflexivity.
Qed.

(** The iteration: one request, no return, no wait. *)
Lemma attempt_falls_through API_KEY query attempt w status body :
  upstream w (sent w) = Http status (Some body) ->
  status_error status = false ->
  without_candidate_content body ->
  try_except (try_block API_KEY query) (except_block attempt) w
  = (Val None, posted API_KEY query w).
Proof.
  intros Hup Hst Hbody.
  apply (attempt_reads API_KEY query attempt w status body None Hup Hst).
  apply read_without_candidate_content. exact Hbody.
Qed.

(** Three such responses: three requests one after the other, then the
    placeholder. *)
Lemma three_fall_throughs API_KEY query w :
  API_KEY <> "" ->
  (forall k, (k < 3)%nat ->
     exists status body,
       upstream w (k + sent w) = Http status (Some body)
       /\ status_error status = false
       /\ without_candidate_content body) ->
  get_gemini_response API_KEY query w
  = (Val meta.placeholder_fail,
     mkWorld (upstream w) (3 + sent w)
       (events w ++ [request API_KEY query; request API_KEY query;
                     request API_KEY query])).
Proof.
  intros Hkey Hall.
  unfold get_gemini_response. rewrite (api_key_present _ Hkey).
  change (seq 0 max_retries) with [0; 1; 2]%nat.
  destruct (Hall 0%nat ltac:(lia)) as [s0 [b0 [U0 [S0 B0]]]].
  destruct (Hall 1%nat ltac:(lia)) as [s1 [b1 [U1 [S1 B1]]]].
  destruct (Hall 2%nat ltac:(lia)) as [s2 [b2 [U2 [S2 B2]]]].
  cbn [attempts]. unfold bind at 1.
  rewrite (attempt_falls_through API_KEY query 0 w s0 b0 U0 S0 B0).
  unfold bind at 1.
  rewrite (attempt_falls_through API_KEY query 1 (posted API_KEY query w) s1 b1 U1 S1 B1).
  unfold bind at 1.
  rewrite (attempt_falls_through API_KEY query 2
             (posted API_KEY query (posted API_KEY query w)) s2 b2 U2 S2 B2).
  unfold ret, posted. cbn [upstream sent events].
  repeat rewrite <- app_assoc. reflexivity.
Qed.

(** C9, at the input where the code departs from it.  The first candidate
    has a content and the content has no [parts] key.  The iteration does
    not fall through to the next request: the subscript raises [KeyError],
    the [except] clause does not catch it, and the call ends there after a
    single request, with no placeholder returned. *)
Theorem content_without_parts_raises_KeyError :
  py_getitem (JObj [("role", JStr "model")]) "parts" = Exc KeyError
  /\ caught KeyError = false
  /\ get_gemini_response "secret" "q"
       (steady (Http 200 (Some content_without_parts_body)))
     = (Exc KeyError,
        mkWorld (fun _ => Http 200 (Some content_without_parts_body)) 1
          [request "secret" "q"]).
Proof. repeat split; reflexivity. Qed.

(** A candidate without grounding data has no citations text. *)
Lemma citations_of_without_grounding candidate :
  lookup "groundingMetadata" candidate = None ->
  citations_of (JObj candidate) = Val "".
Proof.
  intros H. unfold citations_of, grounding_sources. cbn [py_get]. rewrite H. reflexivity.
Qed.

Lemma lookup_some_truthy k o v : lookup k o = Some v -> truthy (JObj o) = true.
Proof. destruct o; [discriminate | reflexivity]. Qed.

Lemma shaped_without_parts body candidate :
  shaped body candidate [] -> without_candidate_content body.
Proof.
  intros [o [others [content [-> [Hc [Hcontent Hparts]]]]]].
  exists o. split; [reflexivity |]. right.
  exists (JObj candidate), others. split; [exact Hc |].
  right. exists candidate. split; [reflexivity |].
  rewrite Hcontent. right. exists content, (JArr []). repeat split. exact Hparts.
Qed.

Lemma read_part_without_text body candidate part others citations :
  shaped body candidate (JObj part :: others) ->
  lookup "text" part = None ->
  citations_of (JObj candidate) = Val citations ->
  read_result body = Val (Some (meta.placeholder_fail ++ citations)).
Proof.
  intros [o [rest [content [-> [Hc [Hcontent Hparts]]]]]] Htext Hcit.
  unfold read_result. cbn [py_get]. rewrite Hc. cbn [obind py_index0].
  unfold candidate_has_parts.
  rewrite (lookup_some_truthy _ _ _ Hcontent). cbn [negb py_get py_getitem].
  rewrite Hcontent. cbn [obind].
  rewrite (lookup_some_truthy _ _ _ Hparts). cbn [negb py_getitem].
  rewrite Hparts. cbn [obind truthy py_index0 py_get].
  rewrite Htext, Hcit. reflexivity.
Qed.

Lemma read_no_usable_text body :
  no_usable_text body ->
  read_result body = Val None
  \/ exists citations, read_result body = Val (Some (meta.placeholder_fail ++ citations)).
Proof.
  intros [candidate [parts [Hshape [-> | [part [others [citations [-> [Ht Hc]]]]]]]]].
  - left. apply read_without_candidate_content.
    apply (shaped_without_parts _ candidate). exact Hshape.
  - right. exists citations.
    apply (read_part_without_text body candidate part others); assumption.
Qed.

Lemma errors_posted API_KEY query w :
  errors (events (posted API_KEY query w)) = errors (events w).
Proof. cbn [posted events]. unfold errors. rewrite flat_map_app. cbn. apply app_nil_r. Qed.

Lemma sleeps_posted API_KEY query w :
  sleeps (events (posted API_KEY query w)) = sleeps (events w).
Proof. cbn [posted events]. unfold sleeps. rewrite flat_map_app. cbn. apply app_nil_r. Qed.

Lemma attempts_without_text API_KEY query range : forall w,
  (forall k, (k < List.length range)%nat ->
     exists status body,
       upstream w (k + sent w) = Http status (Some body)
       /\ status_error status = false
       /\ no_usable_text body) ->
  exists citations w',
    attempts API_KEY query range w = (Val (meta.placeholder_fail ++ citations), w')
    /\ errors (events w') = errors (events w)
    /\ sleeps (events w') = sleeps (events w)
    /\ (sent w' <= List.length range + sent w)%nat.
Proof.
  induction range as [| attempt rest IH]; intros w Hall.
  - exists "", w. cbn [attempts]. rewrite append_nil_r. repeat split. cbn. lia.
  - destruct (Hall 0%nat ltac:(cbn; lia)) as [status [body [Hup [Hst Hbody]]]].
    cbn [attempts]. unfold bind at 1.
    destruct (read_no_usable_text body Hbody) as [Hr | [citations Hr]];
      rewrite (attempt_reads API_KEY query attempt w status body _ Hup Hst Hr).
    + destruct (IH (posted API_KEY query w)) as [citations [w' [Hrun [He [Hs Hn]]]]].
      { intros k Hk. cbn [posted upstream sent].
        rewrite Nat.add_succ_r. apply (Hall (S k)). cbn. lia. }
      exists citations, w'. rewrite Hrun, He, Hs, errors_posted, sleeps_posted.
      repeat split. cbn [posted sent List.length] in *. lia.
    + exists citations, (posted API_KEY query w).
      rewrite errors_posted, sleeps_posted. repeat split.
      cbn [posted sent List.length]. lia.
Qed.

Lemma placeholder_is_not_apology citations :
  meta.placeholder_fail ++ citations <> meta.api_fail.
Proof. intros H. vm_compute in H. discriminate H. Qed.

(** When every attempt meets a successful response of the expected shape
    with no answer text in it, the result is a returned text that begins
    with the fixed placeholder: no diagnostic and no backoff wait. *)
Theorem no_usable_text_gives_placeholder (API_KEY query : string) (w : world) :
  API_KEY <> "" ->
  (forall k, (k < 3)%nat ->
     exists status body,
       upstream w (k + sent w) = Http status (Some body)
       /\ status_error status = false
       /\ no_usable_text body) ->
  exists citations w',
    get_gemini_response API_KEY query w
    = (Val (meta.placeholder_fail ++ citations), w')
    /\ meta.placeholder_fail ++ citations <> meta.api_fail
    /\ errors (events w') = errors (events w)
    /\ sleeps (events w') = sleeps (events w)
    /\ (sent w' <= 3 + sent w)%nat.
Proof.
  intros Hkey Hall.
  unfold get_gemini_response. rewrite (api_key_present _ Hkey).
  destruct (attempts_without_text API_KEY query (seq 0 max_retries) w Hall)
    as [citations [w' [Hrun [He [Hs Hn]]]]].
  exists citations, w'. repeat split; try assumption.
  apply placeholder_is_not_apology.
Qed.

Lemma function_call_body_no_usable_text : no_usable_text function_call_body.
Proof.
  eexists _, _. split.
  - eexists _, _, _. repeat split; reflexivity.
  - right. eexists _, _, _. repeat split; reflexivity.
Defined.

Lemma no_usable_text_gives_placeholder_witness :
  exists citations w',
    get_gemini_response "secret" "q" (steady (Http 200 (Some function_call_body)))
    = (Val (meta.placeholder_fail ++ citations), w')
    /\ meta.placeholder_fail ++ citations <> meta.api_fail
    /\ errors (events w') = errors (events (steady (Http 200 (Some function_call_body))))
    /\ sleeps (events w') = sleeps (events (steady (Http 200 (Some function_call_body))))
    /\ (sent w' <= 3 + sent (steady (Http 200 (Some function_call_body))))%nat.
Proof.
  apply (no_usable_text_gives_placeholder "secret" "q"
           (steady (Http 200 (Some function_call_body)))).
  - discriminate.
  - intros k _. exists 200%Z, function_call_body.
    split; [reflexivity | split; [reflexivity | exact function_call_body_no_usable_text]].
Defined.

Example function_call_body_run :
  get_gemini_response "secret" "q" (steady (Http 200 (Some function_call_body)))
  = (Val meta.placeholder_fail,
     mkWorld (fun _ => Http 200 (Some function_call_body)) 1 [request "secret" "q"]).
Proof. reflexivity. Qed.

(* ===================================================================== *)
(** ** Whole runs of the fetcher, whatever the upstream does *)
(* ===================================================================== *)

Lemma attempt_classified API_KEY query attempt w :
  try_except (try_block API_KEY query) (except_block attempt) w
  = match classify (upstream w (sent w)) with
    | Failed => except_block attempt (posted API_KEY query w)
    | Answered answer => (Val (Some answer), posted API_KEY query w)
    | FellThrough => (Val None, posted API_KEY query w)
    | Raised e => (Exc e, posted API_KEY query w)
    end.
Proof.
  unfold classify.
  destruct (upstream w (sent w)) as [| status [body |]] eqn:Hup.
  - apply attempt_fails. rewrite Hup. reflexivity.
  - destruct (status_error status) eqn:Hst.
    + apply attempt_fails. rewrite Hup. cbn. rewrite Hst. reflexivity.
    + destruct (read_result body) as [[answer |] | e] eqn:Hr.
      * apply (attempt_reads _ _ _ _ status body); assumption.
      * apply (attempt_reads _ _ _ _ status body); assumption.
      * apply (attempt_raises _ _ _ _ status body); assumption.
  - destruct (status_error status) eqn:Hst;
      apply attempt_fails; rewrite Hup; cbn; rewrite Hst; reflexivity.
Qed.

Lemma classify_raised_uncaught r e : classify r = Raised e -> caught e = false.
Proof.
  unfold classify. destruct r as [| status [body |]]; try discriminate.
  - destruct (status_error status); [discriminate |].
    pose proof (uncaught_read_result body) as Hun.
    destruct (read_result body) as [[answer |] | e']; try discriminate.
    intros [= ->]. exact Hun.
  - destruct (status_error status); discriminate.
Qed.

Lemma except_block_cases attempt w :
  ((attempt < 2)%nat
   /\ except_block attempt w = (Val None, emit (Sleep (2 ^ Z.of_nat attempt)) w))
  \/ ((2 <= attempt)%nat
      /\ except_block attempt w
         = (Val (Some meta.api_fail), emit (StError connect_error_message) w)).
Proof.
  destruct (Nat.lt_ge_cases attempt 2) as [Hlt | Hge].
  - left. split; [exact Hlt | apply except_block_waits; exact Hlt].
  - right. split; [exact Hge |].
    unfold except_block, max_retries.
    destruct (Nat.ltb_spec attempt (3 - 1)); [cbn in *; lia | reflexivity].
Qed.

Lemma run_from_refl w : run_from w w [].
Proof. repeat split. cbn. symmetry. apply app_nil_r. Qed.

Lemma run_from_posted API_KEY query w w' trace :
  run_from (posted API_KEY query w) w' trace ->
  run_from w w' (request API_KEY query :: trace).
Proof.
  intros [Hup [Hsent Hev]]. cbn [posted upstream sent events] in *.
  repeat split; [exact Hup | |].
  - rewrite Hsent. unfold posts. cbn. lia.
  - rewrite Hev, <- app_assoc. reflexivity.
Qed.

Lemma run_from_emit e w w' trace :
  (match e with Post _ _ => False | _ => True end) ->
  run_from (emit e w) w' trace -> run_from w w' (e :: trace).
Proof.
  intros He [Hup [Hsent Hev]]. cbn [emit upstream sent events] in *.
  repeat split; [exact Hup | |].
  - rewrite Hsent. unfold posts. destruct e; [contradiction | reflexivity | reflexivity].
  - rewrite Hev, <- app_assoc. reflexivity.
Qed.

(** Everything the loop can do, whatever the replies are. *)
Lemma attempts_cons API_KEY query attempt rest w :
  attempts API_KEY query (attempt :: rest) w
  = match classify (upstream w (sent w)) with
    | Failed =>
        match except_block attempt (posted API_KEY query w) with
        | (Val (Some answer), w') => (Val answer, w')
        | (Val None, w') => attempts API_KEY query rest w'
        | (Exc e, w') => (Exc e, w')
        end
    | Answered answer => (Val answer, posted API_KEY query w)
    | FellThrough => attempts API_KEY query rest (posted API_KEY query w)
    | Raised e => (Exc e, posted API_KEY query w)
    end.
Proof.
  cbn [attempts]. unfold bind at 1. rewrite attempt_classified.
  destruct (classify (upstream w (sent w))); try reflexivity.
  destruct (except_block attempt (posted API_KEY query w)) as [[[answer |] | e] w'];
    reflexivity.
Qed.

Ltac seven_parts :=
  refine (conj _ (conj _ (conj _ (conj _ (conj _ (conj _ _)))))).

Lemma attempts_run API_KEY query range : forall w,
  exists trace,
    run_from w (snd (attempts API_KEY query range w)) trace
    /\ (posts trace <= List.length range)%nat
    /\ (range <> [] -> 1 <= posts trace)%nat
    /\ requests_are API_KEY query trace
    /\ subsequence (sleeps trace) (backoff_waits range)
    /\ (errors trace = []
        \/ (errors trace = [connect_error_message]
            /\ fst (attempts API_KEY query range w) = Val meta.api_fail))
    /\ (forall e, fst (attempts API_KEY query range w) = Exc e -> caught e = false).
Proof.
  induction range as [| attempt rest IH]; intros w.
  - exists []. cbn [attempts ret fst snd]. seven_parts.
    + apply run_from_refl.
    + cbn. lia.
    + intros H. contradiction.
    + constructor.
    + constructor.
    + left. reflexivity.
    + discriminate.
  - rewrite attempts_cons.
    destruct (classify (upstream w (sent w))) as [| answer | | e] eqn:Hc.
    + destruct (except_block_cases attempt (posted API_KEY query w))
        as [[Hlt ->] | [Hge ->]]; cbv beta iota.
      * destruct (IH (emit (Sleep (2 ^ Z.of_nat attempt)) (posted API_KEY query w)))
          as [trace [Hrun [Hn [_ [Hreq [Hsl [Herr Hexc]]]]]]].
        exists (request API_KEY query :: Sleep (2 ^ Z.of_nat attempt) :: trace).
        seven_parts.
        -- apply run_from_posted, run_from_emit; [exact I | exact Hrun].
        -- unfold posts in *. cbn in *. lia.
        -- intros _. unfold posts. cbn. lia.
        -- constructor; [reflexivity | constructor; [exact I | exact Hreq]].
        -- unfold backoff_waits, max_retries. cbn [filter Nat.sub].
           destruct (Nat.ltb_spec attempt 2); [| lia].
           cbn [map sleeps flat_map app]. apply subsequence_keep. exact Hsl.
        -- exact Herr.
        -- exact Hexc.
      * exists [request API_KEY query; StError connect_error_message].
        cbn [ret fst snd]. seven_parts.
        -- apply run_from_posted, run_from_emit; [exact I | apply run_from_refl].
        -- unfold posts. cbn. lia.
        -- intros _. unfold posts. cbn. lia.
        -- constructor; [reflexivity | constructor; [exact I | constructor]].
        -- apply subsequence_nil.
        -- right. split; reflexivity.
        -- discriminate.
    + exists [request API_KEY query]. cbn [ret fst snd]. seven_parts.
      * apply run_from_posted, run_from_refl.
      * unfold posts. cbn. lia.
      * intros _. unfold posts. cbn. lia.
      * constructor; [reflexivity | constructor].
      * apply subsequence_nil.
      * left. reflexivity.
      * discriminate.
    + destruct (IH (posted API_KEY query w))
        as [trace [Hrun [Hn [_ [Hreq [Hsl [Herr Hexc]]]]]]].
      exists (request API_KEY query :: trace). seven_parts.
      * apply run_from_posted. exact Hrun.
      * unfold posts in *. cbn in *. lia.
      * intros _. unfold posts. cbn. lia.
      * constructor; [reflexivity | exact Hreq].
      * unfold backoff_waits in *. cbn [filter].
        destruct (attempt <? max_retries - 1)%nat;
          [cbn [map]; apply subsequence_skip |]; exact Hsl.
      * exact Herr.
      * exact Hexc.
    + exists [request API_KEY query]. cbn [fst snd]. seven_parts.
      * apply run_from_posted, run_from_refl.
      * unfold posts. cbn. lia.
      * intros _. unfold posts. cbn. lia.
      * constructor; [reflexivity | constructor].
      * apply subsequence_nil.
      * left. reflexivity.
      * intros e' [= <-]. apply (classify_raised_uncaught _ _ Hc).
Qed.

Lemma fetch_run API_KEY query w :
  exists trace,
    run_from w (snd (get_gemini_response API_KEY query w)) trace
    /\ (posts trace <= 3)%nat
    /\ (API_KEY <> "" -> 1 <= posts trace)%nat
    /\ (API_KEY = "" -> posts trace = 0%nat)
    /\ requests_are API_KEY query trace
    /\ subsequence (sleeps trace) [1; 2]%Z
    /\ (errors trace = []
        \/ (exists msg, errors trace = [msg])
           /\ fst (get_gemini_response API_KEY query w) = Val meta.api_fail)
    /\ (forall e, fst (get_gemini_response API_KEY query w) = Exc e -> caught e = false).
Proof.
  unfold get_gemini_response.
  destruct (String.eqb_spec API_KEY "") as [-> | Hkey].
  - eexists [StError _]. cbn [truthy negb String.eqb bind st_error ret fst snd].
    refine (conj _ (conj _ (conj _ (conj _ (conj _ (conj _ (conj _ _))))))).
    + apply run_from_emit; [exact I | apply run_from_refl].
    + unfold posts. cbn. lia.
    + intros H. contradiction.
    + reflexivity.
    + constructor; [exact I | constructor].
    + apply subsequence_nil.
    + right. split; [eexists; reflexivity | reflexivity].
    + discriminate.
  - rewrite (api_key_present _ Hkey).
    destruct (attempts_run API_KEY query (seq 0 max_retries) w)
      as [trace [Hrun [Hn [Hpos [Hreq [Hsl [Herr Hexc]]]]]]].
    exists trace.
    refine (conj Hrun (conj Hn (conj _ (conj _ (conj Hreq (conj Hsl (conj _ Hexc))))))).
    + intros _. apply Hpos. discriminate.
    + intros H. contradiction.
    + destruct Herr as [H | [H Hr]]; [left; exact H |].
      right. split; [eexists; exact H | exact Hr].
Qed.

(** X1. However the upstream behaves, a call sends at most three requests
    (none without a key, at least one with a key), each of them the same
    request for this key and query; it only adds to the record of events
    and leaves the upstream as it was. *)
Theorem fetch_sends_at_most_three (API_KEY query : string) (w : world) :
  exists trace,
    run_from w (snd (get_gemini_response API_KEY query w)) trace
    /\ (posts trace <= 3)%nat
    /\ (API_KEY <> "" -> 1 <= posts trace)%nat
    /\ (API_KEY = "" -> posts trace = 0%nat)
    /\ requests_are API_KEY query trace.
Proof.
  destruct (fetch_run API_KEY query w) as [trace [Hrun [Hn [Hp [Hz [Hreq _]]]]]].
  exists trace. repeat split; try assumption; apply Hrun.
Qed.



(** X4. However the upstream behaves, a call shows at most one diagnostic,
    and when it shows one the text it returns is the fixed apology: an
    answer, the placeholder or an exception never comes with a diagnostic. *)
Theorem diagnostic_only_with_apology (API_KEY query : string) (w : world) :
  exists trace,
    run_from w (snd (get_gemini_response API_KEY query w)) trace
    /\ (errors trace = []
        \/ (exists msg, errors trace = [msg])
           /\ fst (get_gemini_response API_KEY query w) = Val meta.api_fail).
Proof.
  destruct (fetch_run API_KEY query w) as [trace [Hrun [_ [_ [_ [_ [_ [Herr _]]]]]]]].
  exists trace. split; assumption.
Qed.

(* ===================================================================== *)
(** ** Answers *)
(* ===================================================================== *)

(** X5. A later attempt makes up for the failed ones: when the first
    [failures] attempts (fewer than three) fail and the next one reads an
    answer, that answer is returned, after a wait of 1 and then 2 for the
    failures, with no diagnostic and no further request. *)
Theorem retry_recovers (API_KEY query : string) (w : world)
        (failures : nat) (status : Z) (body : json) (answer : string) :
  API_KEY <> "" ->
  (failures < 3)%nat ->
  (forall k, (k < failures)%nat ->
     transport_failure (upstream w (k + sent w))
     || unparseable (upstream w (k + sent w)) = true) ->
  upstream w (failures + sent w) = Http status (Some body) ->
  status_error status = false ->
  read_result body = Val (Some answer) ->
  get_gemini_response API_KEY query w
  = (Val answer,
     mkWorld (upstream w) (S failures + sent w)
       (events w ++ failed_attempts API_KEY query failures
                 ++ [request API_KEY query])).
Proof.
  intros Hkey Hlt Hfail Hup Hst Hread.
  unfold get_gemini_response. rewrite (api_key_present _ Hkey).
  change (seq 0 max_retries) with [0; 1; 2]%nat.
  destruct failures as [| [| [| failures]]]; [| | | lia].
  - cbn [attempts]. unfold bind at 1.
    rewrite (attempt_reads API_KEY query 0 w status body _ Hup Hst Hread).
    reflexivity.
  - cbn [attempts]. unfold bind at 1.
    rewrite attempt_fails by (apply (Hfail 0%nat); lia).
    rewrite except_block_waits by lia. unfold bind at 1.
    rewrite (attempt_reads API_KEY query 1
               (emit (Sleep (2 ^ Z.of_nat 0)) (posted API_KEY query w))
               status body _ Hup Hst Hread).
    unfold ret, emit, posted, failed_attempts. cbn [upstream sent events seq flat_map app].
    repeat rewrite <- app_assoc. reflexivity.
  - cbn [attempts]. unfold bind at 1.
    rewrite attempt_fails by (apply (Hfail 0%nat); lia).
    rewrite except_block_waits by lia. unfold bind at 1.
    rewrite attempt_fails by (apply (Hfail 1%nat); lia).
    rewrite except_block_waits by lia. unfold bind at 1.
    rewrite (attempt_reads API_KEY query 2
               (emit (Sleep (2 ^ Z.of_nat 1))
                  (posted API_KEY query
                     (emit (Sleep (2 ^ Z.of_nat 0)) (posted API_KEY query w))))
               status body _ Hup Hst Hread).
    unfold ret, emit, posted, failed_attempts. cbn [upstream sent events seq flat_map app].
    repeat rewrite <- app_assoc. reflexivity.
Qed.

Lemma retry_recovers_witness :
  get_gemini_response "secret" "q"
    (mkWorld (down_twice_then (plain_body (JStr "Rest, and less salt."))) 0 [])
  = (Val "Rest, and less salt.",
     mkWorld (down_twice_then (plain_body (JStr "Rest, and less salt."))) 3
       ([] ++ failed_attempts "secret" "q" 2 ++ [request "secret" "q"])).
Proof.
  apply (retry_recovers "secret" "q"
           (mkWorld (down_twice_then (plain_body (JStr "Rest, and less salt."))) 0 [])
           2 200 (plain_body (JStr "Rest, and less salt."))
           "Rest, and less salt.").
  - discriminate.
  - lia.
  - intros k Hk. destruct k as [| [| k]]; [reflexivity | reflexivity | lia].
  - reflexivity.
  - reflexivity.
  - reflexivity.
Defined.

Lemma read_text body candidate part others answer citations :
  shaped body candidate (JObj part :: others) ->
  lookup "text" part = Some answer ->
  citations_of (JObj candidate) = Val citations ->
  read_result body = (text <~ py_add_str answer citations; Val (Some text)).
Proof.
  intros [o [rest [content [-> [Hc [Hcontent Hparts]]]]]] Htext Hcit.
  unfold read_result. cbn [py_get]. rewrite Hc. cbn [obind py_index0].
  unfold candidate_has_parts.
  rewrite (lookup_some_truthy _ _ _ Hcontent). cbn [negb py_get py_getitem].
  rewrite Hcontent. cbn [obind].
  rewrite (lookup_some_truthy _ _ _ Hparts). cbn [negb py_getitem].
  rewrite Hparts. cbn [obind truthy py_index0 py_get].
  rewrite Htext, Hcit. reflexivity.
Qed.

Lemma first_attempt_decides API_KEY query w status body r :
  API_KEY <> "" ->
  upstream w (sent w) = Http status (Some body) ->
  status_error status = false ->
  read_result body = r ->
  get_gemini_response API_KEY query w
  = match r with
    | Val (Some answer) => (Val answer, posted API_KEY query w)
    | Val None =>
        attempts API_KEY query [1; 2]%nat (posted API_KEY query w)
    | Exc e => (Exc e, posted API_KEY query w)
    end.
Proof.
  intros Hkey Hup Hst <-.
  unfold get_gemini_response. rewrite (api_key_present _ Hkey).
  change (seq 0 max_retries) with [0; 1; 2]%nat.
  rewrite attempts_cons. unfold classify. rewrite Hup, Hst.
  destruct (read_result body) as [[answer |] | e]; reflexivity.
Qed.

(** X6. An answer that comes without grounding data is returned exactly as
    the service wrote it, the empty text included, after a single request
    and with no wait. *)
Theorem plain_answer_returned_as_is
        (API_KEY query : string) (w : world) (status : Z) (body : json)
        (candidate part : list (string * json)) (others : list json)
        (answer : string) :
  API_KEY <> "" ->
  upstream w (sent w) = Http status (Some body) ->
  status_error status = false ->
  shaped body candidate (JObj part :: others) ->
  lookup "text" part = Some (JStr answer) ->
  lookup "groundingMetadata" candidate = None ->
  get_gemini_response API_KEY query w = (Val answer, posted API_KEY query w).
Proof.
  intros Hkey Hup Hst Hshape Htext Hnone.
  rewrite (first_attempt_decides API_KEY query w status body
             (Val (Some answer)) Hkey Hup Hst); [reflexivity |].
  rewrite (read_text body candidate part others (JStr answer) ""
             Hshape Htext (citations_of_without_grounding candidate Hnone)).
  cbn. rewrite append_nil_r. reflexivity.
Qed.

Lemma plain_answer_returned_as_is_witness :
  get_gemini_response "secret" "q" (steady (Http 200 (Some (plain_body (JStr "")))))
  = (Val "", posted "secret" "q" (steady (Http 200 (Some (plain_body (JStr "")))))).
Proof.
  apply (plain_answer_returned_as_is "secret" "q"
           (steady (Http 200 (Some (plain_body (JStr ""))))) 200
           (plain_body (JStr "")) (plain_candidate (JStr ""))
           [("text", JStr "")] [] "").
  - discriminate.
  - reflexivity.
  - reflexivity.
  - eexists _, _, _. repeat split; reflexivity.
  - reflexivity.
  - reflexivity.
Defined.

Lemma citations_of_grounded candidate gm sources fields :
  lookup "groundingMetadata" candidate = Some (JObj gm) ->
  lookup "groundingAttributions" gm = Some (JArr sources) ->
  sources <> [] ->
  readable sources fields ->
  citations_of (JObj candidate)
  = Val (sources_header ++ render (citation_list fields)).
Proof.
  intros Hgm Hattr Hne [Hread Hhash].
  unfold citations_of, grounding_sources. cbn [py_get]. rewrite Hgm. cbn [obind].
  rewrite (lookup_some_truthy _ _ _ Hattr). cbn [negb py_get py_getitem].
  rewrite Hattr. cbn [obind].
  destruct sources as [| source rest]; [contradiction |].
  cbn [truthy negb obind py_iter].
  rewrite (citations_loop_first_occurrences _ fields Hread Hhash) by (cbn; lia).
  reflexivity.
Qed.

(** X7. An answer that comes with grounding attributions is returned with
    the ["Sources"] section after it: the heading, then one line per
    citation of [citation_list], and nothing else. *)
Theorem grounded_answer_lists_sources
        (API_KEY query : string) (w : world) (status : Z) (body : json)
        (candidate part gm : list (string * json)) (others sources : list json)
        (fields : list (json * json)) (answer : string) :
  API_KEY <> "" ->
  upstream w (sent w) = Http status (Some body) ->
  status_error status = false ->
  shaped body candidate (JObj part :: others) ->
  lookup "text" part = Some (JStr answer) ->
  lookup "groundingMetadata" candidate = Some (JObj gm) ->
  lookup "groundingAttributions" gm = Some (JArr sources) ->
  sources <> [] ->
  readable sources fields ->
  get_gemini_response API_KEY query w
  = (Val (answer ++ sources_header ++ render (citation_list fields)),
     posted API_KEY query w).
Proof.
  intros Hkey Hup Hst Hshape Htext Hgm Hattr Hne Hread.
  rewrite (first_attempt_decides API_KEY query w status body
             (Val (Some (answer ++ sources_header ++ render (citation_list fields))))
             Hkey Hup Hst); [reflexivity |].
  rewrite (read_text body candidate part others (JStr answer) _
             Hshape Htext (citations_of_grounded candidate gm sources fields
                             Hgm Hattr Hne Hread)).
  reflexivity.
Qed.

Lemma grounded_answer_lists_sources_witness :
  get_gemini_response "secret" "What is the optimal diet?"
    (steady (Http 200 (Some (answer_body (JStr "Reduce sodium intake.")
                               (JArr sample_sources)))))
  = (Val ("Reduce sodium intake." ++ sources_header
          ++ render (citation_list sample_fields)),
     posted "secret" "What is the optimal diet?"
       (steady (Http 200 (Some (answer_body (JStr "Reduce sodium intake.")
                                  (JArr sample_sources)))))).
Proof.
  apply (grounded_answer_lists_sources "secret" "What is the optimal diet?"
           (steady (Http 200 (Some (answer_body (JStr "Reduce sodium intake.")
                                      (JArr sample_sources))))) 200
           (answer_body (JStr "Reduce sodium intake.") (JArr sample_sources))
           (grounded_candidate (JStr "Reduce sodium intake.") sample_sources)
           [("text", JStr "Reduce sodium intake.")]
           [("groundingAttributions", JArr sample_sources)]
           [] sample_sources sample_fields "Reduce sodium intake.").
  - discriminate.
  - reflexivity.
  - reflexivity.
  - eexists _, _, _. repeat split; reflexivity.
  - reflexivity.
  - reflexivity.
  - reflexivity.
  - discriminate.
  - split; repeat constructor.
Defined.

(** X8. A [text] that is there and is not a string (a JSON null, a number, a
    list) is not replaced by the placeholder: adding the citations to it
    raises [TypeError], which ends the call unhandled after one request. *)
Theorem non_string_text_raises_TypeError
        (API_KEY query : string) (w : world) (status : Z) (body : json)
        (candidate part : list (string * json)) (others : list json)
        (answer : json) (citations : string) :
  API_KEY <> "" ->
  upstream w (sent w) = Http status (Some body) ->
  status_error status = false ->
  shaped body candidate (JObj part :: others) ->
  lookup "text" part = Some answer ->
  (forall s, answer <> JStr s) ->
  citations_of (JObj candidate) = Val citations ->
  get_gemini_response API_KEY query w = (Exc TypeError, posted API_KEY query w).
Proof.
  intros Hkey Hup Hst Hshape Htext Hnot Hcit.
  rewrite (first_attempt_decides API_KEY query w status body (Exc TypeError)
             Hkey Hup Hst); [reflexivity |].
  rewrite (read_text body candidate part others answer citations Hshape Htext Hcit).
  destruct answer as [| b | n | s | l | o]; try reflexivity.
  exfalso. apply (Hnot s). reflexivity.
Qed.

Lemma non_string_text_raises_TypeError_witness :
  get_gemini_response "secret" "q" (steady (Http 200 (Some (plain_body JNull))))
  = (Exc TypeError, posted "secret" "q" (steady (Http 200 (Some (plain_body JNull))))).
Proof.
  apply (non_string_text_raises_TypeError "secret" "q"
           (steady (Http 200 (Some (plain_body JNull)))) 200
           (plain_body JNull) (plain_candidate JNull) [("text", JNull)] [] JNull "").
  - discriminate.
  - reflexivity.
  - reflexivity.
  - eexists _, _, _. repeat split; reflexivity.
  - reflexivity.
  - intros s. discriminate.
  - reflexivity.
Defined.

(* ===================================================================== *)
(** ** More on the citation loop *)
(* ===================================================================== *)

Lemma citations_loop_stops pre fields :
  Forall2 (fun source f => source_fields source = Val f) pre fields ->
  Forall (fun f => truthy (fst f) = true -> hashable (fst f) = true) fields ->
  forall citations unique_uris rest,
    (List.length unique_uris < 3)%nat ->
    (3 - List.length unique_uris
     <= List.length (first_occurrences unique_uris (filter has_uri fields)))%nat ->
    citations_loop (pre ++ rest) citations unique_uris
    = citations_loop pre citations unique_uris.
Proof.
  induction 1 as [| source [uri title] pre fields Hread _ IH];
    intros Hhash citations unique_uris rest Hlen Hmany.
  - cbn [filter first_occurrences List.length] in Hmany. lia.
  - inversion Hhash as [| ? ? Hu Hrest]; subst. cbn [fst] in Hu.
    rewrite <- app_comm_cons.
    cbn [citations_loop filter] in *. rewrite !Hread. cbn [obind].
    change (has_uri (uri, title)) with (truthy uri) in Hmany.
    destruct (truthy uri) eqn:Ht; [| apply IH; assumption].
    unfold py_in. rewrite (Hu eq_refl). cbn [obind first_occurrences fst] in *.
    destruct (existsb (py_eqb uri) unique_uris) eqn:Hseen; cbn [negb];
      [apply IH; assumption |].
    cbn [List.length] in *.
    destruct (Nat.leb_spec 3 (S (List.length unique_uris))); [reflexivity |].
    apply IH; [assumption | cbn; lia | cbn [List.length]; lia].
Qed.

(** X9. Once three citations are written the loop stops: what comes after
    them in the list is never read, whatever it is, so it cannot change
    the text or make the call fail. *)
Theorem nothing_read_after_three_citations
        (pre rest : list json) (fields : list (json * json)) :
  readable pre fields ->
  List.length (citation_list fields) = 3%nat ->
  citations_loop (pre ++ rest) sources_header []
  = Val (sources_header ++ render (citation_list fields)).
Proof.
  intros [Hread Hhash] Hthree.
  rewrite (citations_loop_stops pre fields Hread Hhash).
  - rewrite (citations_loop_first_occurrences pre fields Hread Hhash) by (cbn; lia).
    reflexivity.
  - cbn. lia.
  - unfold citation_list in Hthree. rewrite length_firstn in Hthree. cbn. lia.
Qed.

Lemma nothing_read_after_three_citations_witness :
  citations_loop four_sources_then_null sources_header []
  = Val (sources_header
         ++ render (citation_list [ (JStr "https://a.example", JStr "Link");
                                    (JStr "https://b.example", JStr "Link");
                                    (JStr "https://c.example", JStr "Link") ])).
Proof.
  apply (nothing_read_after_three_citations
           [ web_source [("uri", JStr "https://a.example")];
             web_source [("uri", JStr "https://b.example")];
             web_source [("uri", JStr "https://c.example")] ]
           [ web_source [("uri", JStr "https://d.example")];
             JObj [("web", JNull)] ]
           [ (JStr "https://a.example", JStr "Link");
             (JStr "https://b.example", JStr "Link");
             (JStr "https://c.example", JStr "Link") ]).
  - split; repeat constructor.
  - reflexivity.
Defined.

Lemma citations_loop_raises pre fields :
  Forall2 (fun source f => source_fields source = Val f) pre fields ->
  Forall (fun f => truthy (fst f) = true -> hashable (fst f) = true) fields ->
  forall citations unique_uris bad rest e,
    (List.length (first_occurrences unique_uris (filter has_uri fields))
     + List.length unique_uris < 3)%nat ->
    (source_fields bad = Exc e
     \/ exists uri title,
          source_fields bad = Val (uri, title)
          /\ truthy uri = true /\ hashable uri = false /\ e = TypeError) ->
    citations_loop (pre ++ bad :: rest) citations unique_uris = Exc e.
Proof.
  induction 1 as [| source [uri title] pre fields Hread _ IH];
    intros Hhash citations unique_uris bad rest e Hfew Hbad.
  - rewrite app_nil_l. cbn [citations_loop].
    destruct Hbad as [-> | [uri [title [-> [Ht [Hh ->]]]]]]; [reflexivity |].
    cbn [obind]. rewrite Ht. unfold py_in. rewrite Hh. reflexivity.
  - inversion Hhash as [| ? ? Hu Hrest]; subst. cbn [fst] in Hu.
    rewrite <- app_comm_cons.
    cbn [citations_loop filter] in *. rewrite !Hread. cbn [obind].
    change (has_uri (uri, title)) with (truthy uri) in Hfew.
    destruct (truthy uri) eqn:Ht; [| apply IH; assumption].
    unfold py_in. rewrite (Hu eq_refl). cbn [obind first_occurrences fst] in *.
    destruct (existsb (py_eqb uri) unique_uris) eqn:Hseen; cbn [negb];
      [apply IH; assumption |].
    cbn [List.length] in *.
    destruct (Nat.leb_spec 3 (S (List.length unique_uris))); [lia |].
    apply IH; [assumption | cbn [List.length]; lia | assumption].
Qed.

(** X10. Before the third citation every attribution is read, and one that
    cannot be read ends the loop with its exception: [AttributeError] and
    the like when the attribution or its [web] is not an object,
    [TypeError] when its URI is a non-empty list or object. *)
Theorem unreadable_attribution_raises
        (pre rest : list json) (fields : list (json * json))
        (bad : json) (e : exn) :
  readable pre fields ->
  (List.length (citation_list fields) < 3)%nat ->
  (source_fields bad = Exc e
   \/ exists uri title,
        source_fields bad = Val (uri, title)
        /\ truthy uri = true /\ hashable uri = false /\ e = TypeError) ->
  citations_loop (pre ++ bad :: rest) sources_header [] = Exc e.
Proof.
  intros [Hread Hhash] Hfew Hbad.
  apply (citations_loop_raises pre fields Hread Hhash); [| exact Hbad].
  unfold citation_list in Hfew. rewrite length_firstn in Hfew. cbn. lia.
Qed.

Lemma unreadable_attribution_raises_witness :
  citations_loop
    ([web_source [("uri", JStr "https://a.example")]]
     ++ JObj [("web", JNull)] :: [web_source [("uri", JStr "https://b.example")]])
    sources_header []
  = Exc AttributeError.
Proof.
  apply (unreadable_attribution_raises
           [web_source [("uri", JStr "https://a.example")]]
           [web_source [("uri", JStr "https://b.example")]]
           [(JStr "https://a.example", JStr "Link")]
           (JObj [("web", JNull)]) AttributeError).
  - split; repeat constructor.
  - cbn. lia.
  - left. reflexivity.
Defined.

Lemma readable_fields_of sources :
  Forall attribution_ok sources -> readable sources (fields_of sources).
Proof.
  induction 1 as [| source rest Hok _ [Hread Hhash]].
  - split; constructor.
  - destruct (attribution_ok_fields source Hok) as [f [Hf Hh]].
    unfold fields_of. cbn [map]. rewrite Hf.
    split; constructor; assumption.
Qed.

Lemma first_occurrences_app l1 : forall seen l2,
  first_occurrences seen (l1 ++ l2)
  = (first_occurrences seen l1
     ++ first_occurrences (rev (map fst (first_occurrences seen l1)) ++ seen) l2)%list.
Proof.
  induction l1 as [| f l1 IH]; intros seen l2; [reflexivity |].
  rewrite <- app_comm_cons. cbn [first_occurrences].
  destruct (existsb (py_eqb (fst f)) seen); [apply IH |].
  rewrite IH. cbn [map rev]. rewrite <- app_assoc. reflexivity.
Qed.

Lemma first_occurrences_covers l : forall seen f,
  In f l -> hashable (fst f) = true ->
  existsb (py_eqb (fst f))
          (rev (map fst (first_occurrences seen l)) ++ seen) = true.
Proof.
  induction l as [| g l IH]; intros seen f Hin Hh; [contradiction |].
  cbn [first_occurrences].
  destruct (existsb (py_eqb (fst g)) seen) eqn:Hseen.
  - destruct Hin as [-> | Hin]; [| apply IH; assumption].
    rewrite existsb_app, Hseen. apply orb_true_r.
  - cbn [map rev]. rewrite <- app_assoc. cbn [List.app].
    destruct Hin as [-> | Hin]; [| apply IH; assumption].
    rewrite existsb_app. cbn [existsb]. rewrite (py_eqb_refl _ Hh).
    rewrite orb_true_l. apply orb_true_r.
Qed.

Lemma first_occurrences_seen_head seen f l :
  existsb (py_eqb (fst f)) seen = true ->
  first_occurrences seen (f :: l) = first_occurrences seen l.
Proof. intros H. cbn [first_occurrences]. rewrite H. reflexivity. Qed.

Lemma citation_list_repeated before between after f :
  (truthy (fst f) = true -> hashable (fst f) = true) ->
  citation_list (before ++ f :: between ++ f :: after)
  = citation_list (before ++ f :: between ++ after).
Proof.
  intros Hh. unfold citation_list. f_equal.
  replace (before ++ f :: between ++ f :: after)%list
    with ((before ++ f :: between) ++ f :: after)%list
    by (rewrite <- app_assoc; reflexivity).
  replace (before ++ f :: between ++ after)%list
    with ((before ++ f :: between) ++ after)%list
    by (rewrite <- app_assoc; reflexivity).
  assert (Hin : In f (before ++ f :: between)).
  { apply in_or_app. right. left. reflexivity. }
  revert Hin. generalize (before ++ f :: between)%list. intros earlier Hin.
  rewrite !filter_app. cbn [filter].
  destruct (has_uri f) eqn:Hu; [| reflexivity].
  rewrite !first_occurrences_app. f_equal.
  apply first_occurrences_seen_head.
  apply first_occurrences_covers; [| apply Hh; exact Hu].
  apply filter_In. split; [exact Hin | exact Hu].
Qed.

(** X11. An attribution that has come before adds nothing: with attributions
    of the documented form, writing one of them a second time anywhere
    later in the list leaves the citations text as it was. *)
Theorem repeated_attribution_changes_nothing
        (before between after : list json) (source : json) :
  Forall attribution_ok (before ++ source :: between ++ after) ->
  citations_loop (before ++ source :: between ++ source :: after) sources_header []
  = citations_loop (before ++ source :: between ++ after) sources_header [].
Proof.
  intros Hok.
  assert (Hsource : attribution_ok source).
  { rewrite Forall_forall in Hok. apply Hok, in_or_app. right. left. reflexivity. }
  assert (Hok2 : Forall attribution_ok
                   (before ++ source :: between ++ source :: after)).
  { rewrite Forall_forall in *. intros x Hx. apply in_app_or in Hx.
    destruct Hx as [Hx | [<- | Hx]].
    - apply Hok, in_or_app. left. exact Hx.
    - exact Hsource.
    - apply in_app_or in Hx. destruct Hx as [Hx | [<- | Hx]].
      + apply Hok, in_or_app. right. right. apply in_or_app. left. exact Hx.
      + exact Hsource.
      + apply Hok, in_or_app. right. right. apply in_or_app. right. exact Hx. }
  destruct (readable_fields_of _ Hok) as [Hread Hhash].
  destruct (readable_fields_of _ Hok2) as [Hread2 Hhash2].
  assert (Heq : citation_list (fields_of (before ++ source :: between ++ source :: after))
                = citation_list (fields_of (before ++ source :: between ++ after))).
  { unfold fields_of. rewrite !map_app. cbn [map]. rewrite !map_app. cbn [map].
    apply citation_list_repeated.
    destruct (attribution_ok_fields source Hsource) as [f [Hf Hh]].
    rewrite Hf. exact Hh. }
  rewrite (citations_loop_first_occurrences _ _ Hread Hhash) by (cbn; lia).
  rewrite (citations_loop_first_occurrences _ _ Hread2 Hhash2) by (cbn; lia).
  unfold citation_list in Heq. cbn [List.length Nat.sub]. rewrite Heq. reflexivity.
Qed.

Lemma repeated_attribution_changes_nothing_witness :
  citations_loop ([] ++ source_a :: [source_b] ++ source_a :: [source_b])
    sources_header []
  = citations_loop ([] ++ source_a :: [source_b] ++ [source_b]) sources_header [].
Proof.
  apply (repeated_attribution_changes_nothing [] [source_b] [source_b] source_a).
  repeat constructor; eexists; (split; [reflexivity | exact eq_refl]).
Defined.

(* ===================================================================== *)
(** ** More on the session *)
(* ===================================================================== *)

(** X12. When the fetch ends in an exception the user's message has already
    been appended and stays: the transcript has grown by that one
    message, no reply follows it, and the exception goes on to the caller. *)
Theorem fetch_exception_leaves_user_turn
        (API_KEY user_query : string) (ss : session_state) (w w' : world)
        (transcript : list message) (e : exn) :
  user_query <> "" ->
  messages ss = Some transcript ->
  get_gemini_response API_KEY user_query w = (Exc e, w') ->
  process_query API_KEY user_query ss w
  = (Exc e, mkSession (Some (transcript ++ [mkMessage "user" user_query])%list), w').
Proof.
  intros Hq Hmsgs Hfetch. unfold process_query.
  rewrite (api_key_present _ Hq). unfold messages_append.
  rewrite Hmsgs, Hfetch. reflexivity.
Qed.

Lemma fetch_exception_leaves_user_turn_witness :
  process_query "secret" "q" (mkSession (Some [greeting_message]))
    (steady (Http 200 (Some content_without_parts_body)))
  = (Exc KeyError,
     mkSession (Some ([greeting_message] ++ [mkMessage "user" "q"])%list),
     posted "secret" "q" (steady (Http 200 (Some content_without_parts_body)))).
Proof.
  apply (fetch_exception_leaves_user_turn "secret" "q"
           (mkSession (Some [greeting_message]))
           (steady (Http 200 (Some content_without_parts_body)))).
  - discriminate.
  - reflexivity.
  - reflexivity.
Defined.

Lemma turns_app a b : turns a -> turns b -> turns (a ++ b).
Proof.
  induction 1 as [| q r rest Hq _ IH | q rest Hq _ IH]; intros Hb; cbn.
  - exact Hb.
  - apply turns_answered; [exact Hq | apply IH; exact Hb].
  - apply turns_unanswered; [exact Hq | apply IH; exact Hb].
Qed.

Lemma process_query_adds_turns API_KEY user_query ss w transcript :
  messages ss = Some transcript ->
  exists extra,
    messages (snd (fst (process_query API_KEY user_query ss w)))
    = Some (transcript ++ extra)%list
    /\ turns extra.
Proof.
  intros Hmsgs. unfold process_query.
  destruct (String.eqb_spec user_query "") as [-> | Hq].
  - exists []. cbn. rewrite app_nil_r. split; [exact Hmsgs | constructor].
  - rewrite (api_key_present _ Hq). unfold messages_append. rewrite Hmsgs.
    destruct (get_gemini_response API_KEY user_query w) as [[answer | e] w'];
      cbn [messages fst snd].
    + exists [mkMessage "user" user_query; mkMessage "bot" answer].
      rewrite <- app_assoc. split; [reflexivity |].
      apply turns_answered; [exact Hq | constructor].
    + exists [mkMessage "user" user_query]. split; [reflexivity |].
      apply turns_unanswered; [exact Hq | constructor].
Qed.

Lemma app_adds_turns API_KEY ev ss w transcript :
  messages (init_messages ss) = Some transcript ->
  exists extra,
    messages (snd (fst (app API_KEY ev ss w))) = Some (transcript ++ extra)%list
    /\ turns extra.
Proof.
  intros Hmsgs. unfold app.
  destruct ev as [| user_input_text | i].
  - exists []. cbn. rewrite app_nil_r. split; [exact Hmsgs | constructor].
  - apply process_query_adds_turns. exact Hmsgs.
  - destruct (nth_error suggestions i).
    + apply process_query_adds_turns. exact Hmsgs.
    + exists []. cbn. rewrite app_nil_r. split; [exact Hmsgs | constructor].
Qed.

Lemma app_runs_add_turns API_KEY evs : forall ss w transcript,
  messages ss = Some transcript ->
  exists extra,
    messages (fst (app_runs API_KEY evs ss w)) = Some (transcript ++ extra)%list
    /\ turns extra.
Proof.
  induction evs as [| ev evs IH]; intros ss w transcript Hmsgs.
  - exists []. cbn. rewrite app_nil_r. split; [exact Hmsgs | constructor].
  - cbn [app_runs].
    destruct (app_adds_turns API_KEY ev ss w transcript) as [extra [He Ht]].
    { rewrite (init_messages_keeps ss _ Hmsgs). exact Hmsgs. }
    destruct (app API_KEY ev ss w) as [[r ss'] w']. cbn [fst snd] in He.
    destruct (IH ss' w' _ He) as [extra' [He' Ht']].
    exists (extra ++ extra')%list. rewrite He', <- app_assoc.
    split; [reflexivity | apply turns_app; assumption].
Qed.

(** X13. Whatever the user does and whatever the upstream answers, the
    transcript is only ever added to: after any number of runs of the
    script it is the transcript there was, unchanged and in the same
    order, followed by what the runs appended. *)
Theorem transcript_only_grows
        (API_KEY : string) (evs : list ui_event) (ss : session_state)
        (w : world) (transcript : list message) :
  messages ss = Some transcript ->
  exists extra,
    messages (fst (app_runs API_KEY evs ss w)) = Some (transcript ++ extra)%list.
Proof.
  intros Hmsgs.
  destruct (app_runs_add_turns API_KEY evs ss w transcript Hmsgs) as [extra [He _]].
  exists extra. exact He.
Qed.

Lemma transcript_only_grows_witness :
  exists extra,
    messages (fst (app_runs "secret" [Submitted "q"; Idle; SuggestionClicked 1]
                     (mkSession (Some [greeting_message]))
                     (steady (Http 200 (Some content_without_parts_body)))))
    = Some ([greeting_message] ++ extra)%list.
Proof.
  apply (transcript_only_grows "secret" [Submitted "q"; Idle; SuggestionClicked 1]
           (mkSession (Some [greeting_message]))
           (steady (Http 200 (Some content_without_parts_body)))
           [greeting_message]).
  reflexivity.
Defined.

Lemma app_adds_expected_turn API_KEY ev ss w transcript :
  messages ss = Some transcript ->
  messages (snd (fst (app API_KEY ev ss w)))
  = Some (transcript ++ expected_turns API_KEY [ev] w)%list
  /\ forall rest,
       expected_turns API_KEY (ev :: rest) w
       = (expected_turns API_KEY [ev] w
          ++ expected_turns API_KEY rest (snd (app API_KEY ev ss w)))%list.
Proof.
  intros Hmsgs.
  assert (Hquery : forall user_query,
            query_of ev = Some user_query ->
            app API_KEY ev ss w = process_query API_KEY user_query ss w).
  { intros user_query Hq. unfold app. rewrite (init_messages_keeps _ _ Hmsgs).
    destruct ev as [| text | i]; cbn [query_of] in Hq.
    - discriminate Hq.
    - injection Hq as ->. reflexivity.
    - rewrite Hq. reflexivity. }
  assert (Hnone : query_of ev = None -> app API_KEY ev ss w = (Val tt, ss, w)).
  { intros Hq. unfold app. rewrite (init_messages_keeps _ _ Hmsgs).
    destruct ev as [| text | i]; cbn [query_of] in Hq.
    - reflexivity.
    - discriminate Hq.
    - rewrite Hq. reflexivity. }
  cbn [expected_turns].
  destruct (query_of ev) as [user_query |].
  - rewrite (Hquery user_query eq_refl). unfold process_query.
    cbn [truthy]. rewrite negb_involutive.
    destruct (user_query =? "").
    + cbn [fst snd]. rewrite !app_nil_r. repeat split. exact Hmsgs.
    + unfold messages_append. rewrite Hmsgs. cbn [messages].
      destruct (get_gemini_response API_KEY user_query w) as [[answer | e] w'];
        cbn [fst snd messages]; rewrite ?app_nil_r;
        repeat split; rewrite <- ?app_assoc; reflexivity.
  - rewrite (Hnone eq_refl). cbn [fst snd]. rewrite !app_nil_r.
    repeat split. exact Hmsgs.
Qed.

Lemma app_runs_add_expected_turns API_KEY evs : forall ss w transcript,
  messages ss = Some transcript ->
  messages (fst (app_runs API_KEY evs ss w))
  = Some (transcript ++ expected_turns API_KEY evs w)%list.
Proof.
  induction evs as [| ev evs IH]; intros ss w transcript Hmsgs.
  - cbn. rewrite app_nil_r. exact Hmsgs.
  - destruct (app_adds_expected_turn API_KEY ev ss w transcript Hmsgs)
      as [Hstep Hsplit].
    rewrite (Hsplit evs). cbn [app_runs].
    destruct (app API_KEY ev ss w) as [[r ss'] w']. cbn [fst snd] in *.
    rewrite (IH ss' w' _ Hstep), <- app_assoc. reflexivity.
Qed.

(** X14. From a fresh session on, once the script has run, the transcript
    is exactly the greeting followed by [expected_turns]: for each
    non-empty query submitted or clicked, in order, the user's message,
    and after it the assistant's reply when the fetch made for that query
    returned one, nothing when that fetch raised; idle runs and empty
    queries add nothing. *)
Theorem transcript_is_greeting_then_turns
        (API_KEY : string) (ev : ui_event) (evs : list ui_event) (w : world) :
  messages (fst (app_runs API_KEY (ev :: evs) fresh_session w))
  = Some (mkMessage "bot" meta.initial_greeting
          :: expected_turns API_KEY (ev :: evs) w).
Proof.
  destruct (app_runs_from_fresh API_KEY (ev :: evs) w) as [Hs _].
  destruct (app_runs_keep_greeting API_KEY (ev :: evs)
              (init_messages fresh_session) w [] eq_refl) as [rest Hrest].
  rewrite <- Hs in Hrest.
  assert (Hsame : init_messages (fst (app_runs API_KEY (ev :: evs) fresh_session w))
                  = fst (app_runs API_KEY (ev :: evs) fresh_session w)).
  { cbn [app_runs].
    destruct (app_extends API_KEY ev fresh_session w [greeting_message] eq_refl)
      as [extra He].
    destruct (app API_KEY ev fresh_session w) as [[r ss'] w']. cbn [fst snd] in He.
    destruct (app_runs_keep_greeting API_KEY evs ss' w' extra He) as [rest' Hrest'].
    apply (init_messages_keeps _ _ Hrest'). }
  rewrite <- Hsame, Hs.
  apply (app_runs_add_expected_turns API_KEY (ev :: evs)
           (init_messages fresh_session) w [greeting_message]).
  reflexivity.
Qed.

Lemma process_query_world API_KEY user_query ss w :
  snd (process_query API_KEY user_query ss w) = w
  \/ snd (process_query API_KEY user_query ss w)
     = snd (get_gemini_response API_KEY user_query w).
Proof.
  unfold process_query.
  destruct (negb (truthy (JStr user_query))); [left; reflexivity |].
  unfold messages_append. destruct (messages ss); [| left; reflexivity].
  right. destruct (get_gemini_response API_KEY user_query w) as [[answer | e] w'];
    reflexivity.
Qed.

Lemma app_world API_KEY ev ss w :
  snd (app API_KEY ev ss w) = w
  \/ exists user_query,
       snd (app API_KEY ev ss w) = snd (get_gemini_response API_KEY user_query w).
Proof.
  unfold app. destruct ev as [| user_input_text | i].
  - left. reflexivity.
  - destruct (process_query_world API_KEY user_input_text (init_messages ss) w)
      as [H | H]; [left | right; exists user_input_text]; exact H.
  - destruct (nth_error suggestions i) as [sug |]; [| left; reflexivity].
    destruct (process_query_world API_KEY sug (init_messages ss) w)
      as [H | H]; [left | right; exists sug]; exact H.
Qed.

(** X15. Without an API key the application never goes to the network:
    whatever the user submits or clicks, over any number of runs, no
    request is sent and nothing is waited for. *)
Theorem no_credential_no_request
        (evs : list ui_event) (ss : session_state) (w : world) :
  let w' := snd (app_runs "" evs ss w) in
  sent w' = sent w
  /\ upstream w' = upstream w
  /\ posts (events w') = posts (events w)
  /\ sleeps (events w') = sleeps (events w).
Proof.
  revert ss w. induction evs as [| ev evs IH]; intros ss w; [repeat split |].
  cbn [app_runs].
  assert (Hstep : sent (snd (app "" ev ss w)) = sent w
                  /\ upstream (snd (app "" ev ss w)) = upstream w
                  /\ posts (events (snd (app "" ev ss w))) = posts (events w)
                  /\ sleeps (events (snd (app "" ev ss w))) = sleeps (events w)).
  { destruct (app_world "" ev ss w) as [-> | [user_query ->]]; [repeat split |].
    cbn [get_gemini_response truthy negb String.eqb bind st_error ret snd
         emit sent upstream events].
    unfold posts, sleeps. rewrite filter_app, flat_map_app, length_app.
    cbn. rewrite Nat.add_0_r, app_nil_r. repeat split. }
  destruct (app "" ev ss w) as [[r ss'] w1]. cbn [snd] in Hstep.
  destruct Hstep as [Hs [Hu [Hp Hsl]]].
  specialize (IH ss' w1). cbn zeta in IH. destruct IH as [Is [Iu [Ip Isl]]].
  cbn zeta. rewrite Is, Iu, Ip, Isl. repeat split; assumption.
Qed.

(** X16. Each run of the script makes at most one call of the fetcher, so at
    most three requests: after [n] runs at most [3 * n] requests have been
    sent, whatever the user did and whatever the upstream answered. *)
Theorem requests_bounded_across_runs
        (API_KEY : string) (evs : list ui_event) (ss : session_state) (w : world) :
  (sent w <= sent (snd (app_runs API_KEY evs ss w))
   <= 3 * List.length evs + sent w)%nat
  /\ upstream (snd (app_runs API_KEY evs ss w)) = upstream w.
Proof.
  revert ss w. induction evs as [| ev evs IH]; intros ss w.
  - cbn. split; [lia | reflexivity].
  - cbn [app_runs].
    assert (Hstep : (sent w <= sent (snd (app API_KEY ev ss w)) <= 3 + sent w)%nat
                    /\ upstream (snd (app API_KEY ev ss w)) = upstream w).
    { destruct (app_world API_KEY ev ss w) as [-> | [user_query ->]];
        [split; [lia | reflexivity] |].
      destruct (fetch_run API_KEY user_query w)
        as [trace [[Hup [Hsent _]] [Hn _]]].
      rewrite Hsent, Hup. split; [lia | reflexivity]. }
    destruct (app API_KEY ev ss w) as [[r ss'] w1]. cbn [snd] in Hstep.
    destruct Hstep as [Hs Hu]. destruct (IH ss' w1) as [Is Iu].
    rewrite Iu, Hu. cbn [List.length]. split; [lia | reflexivity].
Qed.

(* ===================================================================== *)
(** ** The suggestion buttons *)
(* ===================================================================== *)

Lemma to_int_of_nat_proper i :
  Z.to_int (Z.of_nat i) <> Decimal.Pos Decimal.Nil
  /\ Z.to_int (Z.of_nat i) <> Decimal.Neg Decimal.Nil.
Proof.
  destruct i as [| i]; cbn; [split; discriminate |].
  split; [| discriminate].
  intros H. injection H as H.
  apply (DecimalPos.Unsigned.to_uint_nonnil _ H).
Qed.

Lemma suggestion_key_injective i j : suggestion_key i = suggestion_key j -> i = j.
Proof.
  unfold suggestion_key. cbn [py_str py_repr String.append]. intros H.
  injection H as H.
  apply Nat2Z.inj, DecimalZ.to_int_inj.
  destruct (to_int_of_nat_proper i) as [Hi1 Hi2].
  destruct (to_int_of_nat_proper j) as [Hj1 Hj2].
  pose proof (NilZero.isi _ Hi1 Hi2) as Ei.
  pose proof (NilZero.isi _ Hj1 Hj2) as Ej.
  rewrite H in Ei. rewrite Ei in Ej. injection Ej as Ej. exact Ej.
Qed.

Lemma map_combine_fst {A B C} (f : A -> C) (l : list A) : forall (l' : list B),
  List.length l = List.length l' ->
  map (fun entry => f (fst entry)) (combine l l') = map f l.
Proof.
  induction l as [| a l IH]; intros [| b l'] Hlen; try discriminate; [reflexivity |].
  cbn. rewrite IH by (cbn in Hlen; lia). reflexivity.
Qed.

Lemma map_combine_snd {A B} (l' : list B) : forall (l : list A),
  List.length l = List.length l' ->
  map snd (combine l l') = l'.
Proof.
  induction l' as [| b l' IH]; intros [| a l] Hlen; try discriminate; [reflexivity |].
  cbn. rewrite IH by (cbn in Hlen; lia). reflexivity.
Qed.

(** X17. Whatever the list of suggestions, the buttons carry its entries as
    labels in their order, every button is put in one of the three
    columns, and no two buttons have the same widget key. *)
Theorem suggestion_buttons_well_formed (l : list string) :
  map label (suggestion_buttons l) = l
  /\ Forall (fun b => (column b < 3)%nat) (suggestion_buttons l)
  /\ NoDup (map key (suggestion_buttons l)).
Proof.
  unfold suggestion_buttons, enumerate.
  assert (Hlen : List.length (seq 0 (List.length l)) = List.length l)
    by apply length_seq.
  split; [| split].
  - rewrite map_map.
    rewrite (map_ext _ snd) by (intros [i sug]; reflexivity).
    apply map_combine_snd. exact Hlen.
  - apply Forall_forall. intros b Hb. apply in_map_iff in Hb.
    destruct Hb as [[i sug] [<- _]]. cbn [column].
    apply Nat.mod_upper_bound. discriminate.
  - rewrite map_map.
    rewrite (map_ext _ (fun entry => suggestion_key (fst entry)))
      by (intros [i sug]; reflexivity).
    rewrite (map_combine_fst suggestion_key _ l Hlen).
    apply Finite.Injective_map_NoDup; [| apply seq_NoDup].
    intros i j. apply suggestion_key_injective.
Qed.

Lemma nth_error_combine_snd {A B} (l' : list B) : forall (l : list A) i a b,
  nth_error (combine l l') i = Some (a, b) -> nth_error l' i = Some b.
Proof.
  induction l' as [| y l' IH]; intros [| x l] [| i] a b H; cbn in *;
    try discriminate.
  - injection H as _ ->. reflexivity.
  - apply (IH l i a b). exact H.
Qed.

Lemma suggestions_not_empty sug : In sug suggestions -> sug <> "".
Proof.
  intros [<- | [<- | [<- | [<- | []]]]]; discriminate.
Qed.

(** X18. Clicking a suggestion button is the same as typing its label and
    sending it: the run of the script does to the session and to the
    world exactly what a submission of that text does, and as no
    suggestion is empty the click is never passed over as an empty query. *)
Theorem suggestion_click_is_submission
        (API_KEY : string) (i : nat) (b : button)
        (ss : session_state) (w : world) :
  nth_error (suggestion_buttons suggestions) i = Some b ->
  app API_KEY (SuggestionClicked i) ss w = app API_KEY (Submitted (label b)) ss w
  /\ label b <> "".
Proof.
  intros Hb. unfold suggestion_buttons in Hb.
  rewrite nth_error_map in Hb.
  destruct (nth_error (enumerate suggestions) i) as [[j sug] |] eqn:He;
    [| discriminate Hb].
  injection Hb as <-. cbn [label].
  apply nth_error_combine_snd in He.
  split.
  - unfold app. rewrite He. reflexivity.
  - apply suggestions_not_empty. apply (nth_error_In _ _ He).
Qed.

Lemma suggestion_click_is_submission_witness :
  app "secret" (SuggestionClicked 3) fresh_session (steady ConnectionFailed)
  = app "secret"
      (Submitted (label (mkButton 0
                           "Explain the difference between systolic and diastolic pressure."
                           (suggestion_key 3))))
      fresh_session (steady ConnectionFailed)
  /\ label (mkButton 0
              "Explain the difference between systolic and diastolic pressure."
              (suggestion_key 3)) <> "".
Proof.
  apply (suggestion_click_is_submission "secret" 3
           (mkButton 0 "Explain the difference between systolic and diastolic pressure."
                     (suggestion_key 3))
           fresh_session (steady ConnectionFailed)).
  reflexivity.
Defined.

(* ===================================================================== *)
(** ** The response a call ends on *)
(* ===================================================================== *)

Lemma no_return_classify r :
  no_return r -> classify r = Failed \/ classify r = FellThrough.
Proof.
  intros [Hfail | [status [body [-> [Hst Hbody]]]]].
  - left. unfold classify. destruct r as [| status [body |]]; [reflexivity | |].
    + cbn in Hfail. rewrite orb_false_r in Hfail. rewrite Hfail. reflexivity.
    + destruct (status_error status); reflexivity.
  - right. unfold classify. rewrite Hst.
    rewrite (read_without_candidate_content body Hbody). reflexivity.
Qed.

Lemma errors_emit_sleep seconds w :
  errors (events (emit (Sleep seconds) w)) = errors (events w).
Proof. cbn [emit events]. unfold errors. rewrite flat_map_app. cbn. apply app_nil_r. Qed.

(** Attempts that do not return and are not the last leave the loop
    where it was, some requests later and with no diagnostic. *)
Lemma attempts_skip API_KEY query pre : forall rest w,
  Forall (fun attempt => (attempt < 2)%nat) pre ->
  (forall k, (k < List.length pre)%nat -> no_return (upstream w (k + sent w))) ->
  exists w1,
    attempts API_KEY query (pre ++ rest) w = attempts API_KEY query rest w1
    /\ upstream w1 = upstream w
    /\ sent w1 = (List.length pre + sent w)%nat
    /\ errors (events w1) = errors (events w).
Proof.
  induction pre as [| attempt pre IH]; intros rest w Hlt Hskip.
  - exists w. repeat split.
  - inversion Hlt as [| ? ? Ha Hpre]; subst.
    rewrite <- app_comm_cons, attempts_cons.
    assert (Hnext : forall w2,
              upstream w2 = upstream w -> sent w2 = S (sent w) ->
              errors (events w2) = errors (events w) ->
              exists w1,
                attempts API_KEY query (pre ++ rest) w2
                = attempts API_KEY query rest w1
                /\ upstream w1 = upstream w
                /\ sent w1 = (List.length (attempt :: pre) + sent w)%nat
                /\ errors (events w1) = errors (events w)).
    { intros w2 Hu Hs He.
      destruct (IH rest w2 Hpre) as [w1 [Hrun [Hu1 [Hs1 He1]]]].
      - intros k Hk. rewrite Hu, Hs, Nat.add_succ_r.
        apply (Hskip (S k)). cbn. lia.
      - exists w1. rewrite Hrun, Hu1, Hs1, He1, Hu, Hs, He.
        repeat split. cbn [List.length]. lia. }
    destruct (no_return_classify _ (Hskip 0%nat ltac:(cbn; lia))) as [Hc | Hc];
      cbn [Nat.add] in Hc; rewrite Hc.
    + rewrite except_block_waits by exact Ha.
      apply Hnext; [reflexivity | reflexivity |].
      rewrite errors_emit_sleep. apply errors_posted.
    + apply Hnext; [reflexivity | reflexivity | apply errors_posted].
Qed.

Lemma fetch_after_skips API_KEY query w skipped :
  API_KEY <> "" ->
  (skipped < 3)%nat ->
  (forall k, (k < skipped)%nat -> no_return (upstream w (k + sent w))) ->
  exists w1,
    get_gemini_response API_KEY query w
    = attempts API_KEY query (seq skipped (3 - skipped)) w1
    /\ upstream w1 = upstream w
    /\ sent w1 = (skipped + sent w)%nat
    /\ errors (events w1) = errors (events w).
Proof.
  intros Hkey Hlt Hskip.
  unfold get_gemini_response. rewrite (api_key_present _ Hkey).
  replace (seq 0 max_retries) with (seq 0 skipped ++ seq skipped (3 - skipped))%list
    by (rewrite <- seq_app; f_equal; unfold max_retries; lia).
  destruct (attempts_skip API_KEY query (seq 0 skipped) (seq skipped (3 - skipped)) w)
    as [w1 [Hrun [Hu [Hs He]]]].
  - apply Forall_forall. intros a Ha. apply in_seq in Ha. lia.
  - rewrite length_seq. exact Hskip.
  - exists w1. rewrite length_seq in Hs. repeat split; assumption.
Qed.

Lemma fetch_ends_at API_KEY query w skipped :
  API_KEY <> "" ->
  (skipped < 3)%nat ->
  (forall k, (k < skipped)%nat -> no_return (upstream w (k + sent w))) ->
  exists w1,
    upstream w1 = upstream w
    /\ sent w1 = (skipped + sent w)%nat
    /\ errors (events w1) = errors (events w)
    /\ get_gemini_response API_KEY query w
       = match classify (upstream w (skipped + sent w)) with
         | Failed =>
             match except_block skipped (posted API_KEY query w1) with
             | (Val (Some answer), w') => (Val answer, w')
             | (Val None, w') =>
                 attempts API_KEY query (seq (S skipped) (2 - skipped)) w'
             | (Exc e, w') => (Exc e, w')
             end
         | Answered answer => (Val answer, posted API_KEY query w1)
         | FellThrough =>
             attempts API_KEY query (seq (S skipped) (2 - skipped))
               (posted API_KEY query w1)
         | Raised e => (Exc e, posted API_KEY query w1)
         end.
Proof.
  intros Hkey Hlt Hskip.
  destruct (fetch_after_skips API_KEY query w skipped Hkey Hlt Hskip)
    as [w1 [Hrun [Hu [Hs He]]]].
  exists w1. repeat split; try assumption.
  rewrite Hrun.
  replace (3 - skipped)%nat with (S (2 - skipped)) by lia.
  cbn [seq]. rewrite attempts_cons, Hu, Hs. reflexivity.
Qed.

(** C8, refuted as stated.  A successful response of the expected shape
    with no part in it is not resolved with the placeholder: the request
    is made again, and when the upstream is down from then on the call
    ends with the apology and a diagnostic. *)
Lemma empty_parts_then_failures_gives_apology :
  shaped empty_parts_body empty_parts_candidate []
  /\ get_gemini_response "secret" "q" (mkWorld (once_then_down empty_parts_body) 0 [])
     = (Val meta.api_fail,
        mkWorld (once_then_down empty_parts_body) 3
          [ request "secret" "q"; request "secret" "q"; Sleep 2;
            request "secret" "q"; StError connect_error_message ])
  /\ ~ (forall API_KEY query w status body candidate,
          API_KEY <> "" ->
          upstream w (sent w) = Http status (Some body) ->
          status_error status = false ->
          shaped body candidate [] ->
          fst (get_gemini_response API_KEY query w) = Val meta.placeholder_fail).
Proof.
  assert (Hshape : shaped empty_parts_body empty_parts_candidate []).
  { eexists _, _, _. repeat split; reflexivity. }
  split; [exact Hshape | split; [reflexivity |]].
  intros H.
  specialize (H "secret" "q" (mkWorld (once_then_down empty_parts_body) 0 [])
                200%Z empty_parts_body empty_parts_candidate
                ltac:(discriminate) eq_refl eq_refl Hshape).
  vm_compute in H. discriminate H.
Qed.

(** C8, amended.  The call ends on the placeholder whenever the response
    it ends on is a successful response of the expected shape with no
    answer text.  If the first part of the response has no [text] key, the
    attempt that receives it (after earlier attempts that failed or fell
    through) returns the placeholder followed by the citations text of
    the response, which is empty when the candidate has no grounding
    data.  If the response has no part, it is the third attempt that must
    receive it, and the placeholder alone is returned.  Either way the
    result is a returned text, not the apology, no diagnostic is emitted
    and no further request is made. *)
Theorem text_less_response_ends_on_placeholder
        (API_KEY query : string) (w : world) (skipped : nat) (status : Z)
        (body : json) (candidate : list (string * json)) (parts : list json)
        (citations : string) :
  API_KEY <> "" ->
  (skipped < 3)%nat ->
  (forall k, (k < skipped)%nat -> no_return (upstream w (k + sent w))) ->
  upstream w (skipped + sent w) = Http status (Some body) ->
  status_error status = false ->
  shaped body candidate parts ->
  ((exists part others,
      parts = JObj part :: others
      /\ lookup "text" part = None
      /\ citations_of (JObj candidate) = Val citations)
   \/ (parts = [] /\ skipped = 2%nat /\ citations = "")) ->
  exists w',
    get_gemini_response API_KEY query w
    = (Val (meta.placeholder_fail ++ citations), w')
    /\ meta.placeholder_fail ++ citations <> meta.api_fail
    /\ (lookup "groundingMetadata" candidate = None ->
        meta.placeholder_fail ++ citations = meta.placeholder_fail)
    /\ errors (events w') = errors (events w)
    /\ sent w' = (S skipped + sent w)%nat
    /\ upstream w' = upstream w.
Proof.
  intros Hkey Hlt Hskip Hup Hst Hshape Hend.
  destruct (fetch_ends_at API_KEY query w skipped Hkey Hlt Hskip)
    as [w1 [Hu [Hs [He Hrun]]]].
  unfold classify in Hrun. rewrite Hup, Hst in Hrun.
  assert (Hnone : lookup "groundingMetadata" candidate = None ->
                  meta.placeholder_fail ++ citations = meta.placeholder_fail).
  { intros Hgm.
    destruct Hend as [[part [others [_ [_ Hcit]]]] | [_ [_ ->]]];
      [| apply append_nil_r].
    rewrite (citations_of_without_grounding candidate Hgm) in Hcit.
    injection Hcit as <-. apply append_nil_r. }
  exists (posted API_KEY query w1).
  refine (conj _ (conj (placeholder_is_not_apology citations)
                       (conj Hnone (conj _ (conj _ _))))).
  - rewrite Hrun.
    destruct Hend as [[part [others [-> [Htext Hcit]]]] | [-> [-> ->]]].
    + rewrite (read_part_without_text body candidate part others citations
                 Hshape Htext Hcit).
      reflexivity.
    + rewrite (read_without_candidate_content body
                 (shaped_without_parts body candidate Hshape)).
      cbn [seq Nat.sub attempts ret]. rewrite append_nil_r. reflexivity.
  - rewrite errors_posted. exact He.
  - cbn [posted sent]. rewrite Hs. reflexivity.
  - exact Hu.
Qed.

Lemma text_less_response_ends_on_placeholder_witness :
  exists w',
    get_gemini_response "secret" "q" (mkWorld (down_once_then function_call_body) 0 [])
    = (Val (meta.placeholder_fail ++ ""), w')
    /\ meta.placeholder_fail ++ "" <> meta.api_fail
    /\ (lookup "groundingMetadata" function_call_candidate = None ->
        meta.placeholder_fail ++ "" = meta.placeholder_fail)
    /\ errors (events w')
       = errors (events (mkWorld (down_once_then function_call_body) 0 []))
    /\ sent w' = (2 + sent (mkWorld (down_once_then function_call_body) 0 []))%nat
    /\ upstream w' = upstream (mkWorld (down_once_then function_call_body) 0 []).
Proof.
  apply (text_less_response_ends_on_placeholder "secret" "q"
           (mkWorld (down_once_then function_call_body) 0 []) 1 200
           function_call_body function_call_candidate
           [JObj [("functionCall", JObj [("name", JStr "search")])]] "").
  - discriminate.
  - lia.
  - intros k Hk. left. destruct k as [| k]; [reflexivity | lia].
  - reflexivity.
  - reflexivity.
  - eexists _, _, _. repeat split; reflexivity.
  - left. eexists _, _. repeat split; reflexivity.
Defined.

(** A first part without text in a response with grounding attributions:
    the placeholder comes with a Sources section after it. *)
Example text_less_grounded_response :
  fst (get_gemini_response "secret" "q"
         (steady (Http 200 (Some
            (JObj [("candidates",
                    JArr [JObj [("content",
                                 JObj [("parts", JArr [JObj [("inlineData", JObj [])]])]);
                                ("groundingMetadata",
                                 JObj [("groundingAttributions",
                                        JArr [source_a])])]])])))))
  = Val (meta.placeholder_fail ++ sources_header
         ++ "- [A](https://a.example)" ++ nl).
Proof. reflexivity. Qed.

(** X3. An exception raised while reading a parsed body is never retried
    and never turned into the apology.  At whichever attempt the body of
    the wrong shape arrives, after earlier attempts that failed or fell
    through, the call ends there with that exception: no further request,
    no diagnostic, and the exception is one the [except] clause does not
    catch. *)
Theorem shape_error_is_not_retried
        (API_KEY query : string) (w : world) (skipped : nat) (status : Z)
        (body : json) (e : exn) :
  API_KEY <> "" ->
  (skipped < 3)%nat ->
  (forall k, (k < skipped)%nat -> no_return (upstream w (k + sent w))) ->
  upstream w (skipped + sent w) = Http status (Some body) ->
  status_error status = false ->
  read_result body = Exc e ->
  exists w',
    get_gemini_response API_KEY query w = (Exc e, w')
    /\ caught e = false
    /\ errors (events w') = errors (events w)
    /\ sent w' = (S skipped + sent w)%nat
    /\ upstream w' = upstream w.
Proof.
  intros Hkey Hlt Hskip Hup Hst Hread.
  destruct (fetch_ends_at API_KEY query w skipped Hkey Hlt Hskip)
    as [w1 [Hu [Hs [He Hrun]]]].
  unfold classify in Hrun. rewrite Hup, Hst, Hread in Hrun.
  exists (posted API_KEY query w1).
  refine (conj Hrun (conj _ (conj _ (conj _ Hu)))).
  - pose proof (uncaught_read_result body) as Hun. rewrite Hread in Hun. exact Hun.
  - rewrite errors_posted. exact He.
  - cbn [posted sent]. rewrite Hs. reflexivity.
Qed.

Lemma shape_error_is_not_retried_witness :
  exists w',
    get_gemini_response "secret" "q"
      (mkWorld (down_once_then content_without_parts_body) 0 [])
    = (Exc KeyError, w')
    /\ caught KeyError = false
    /\ errors (events w')
       = errors (events (mkWorld (down_once_then content_without_parts_body) 0 []))
    /\ sent w'
       = (2 + sent (mkWorld (down_once_then content_without_parts_body) 0 []))%nat
    /\ upstream w'
       = upstream (mkWorld (down_once_then content_without_parts_body) 0 []).
Proof.
  apply (shape_error_is_not_retried "secret" "q"
           (mkWorld (down_once_then content_without_parts_body) 0 []) 1 200
           content_without_parts_body KeyError).
  - discriminate.
  - lia.
  - intros k Hk. left. destruct k as [| k]; [reflexivity | lia].
  - reflexivity.
  - reflexivity.
  - reflexivity.
Defined.
